(** * F007TH monitor: the Manchester receiver of [F007THv2.ino]

    A shallow embedding of the sketch's receive path: the state machine of
    [loop], the bit/byte assembler [add] with the field extraction it
    performs on a full frame, and the per-channel filter [saveReading].

    Conventions.
    - The sketch is written for an AVR Arduino ([word], [dtostrf],
      "interrupt 0 is pin 2"): [byte] is 8 bits, [int] is 16 bits two's
      complement, [unsigned long] is 32 bits.  Every integer is a [Z] and
      the conversions to these types are written out ([to_byte], [to_int],
      [to_ulong]).
    - The global variables of the sketch are the fields of one record,
      [State], under their own names.  The globals the receive path never
      touches ([bank], [nosRepeats], [sync0In], [stnId], [LastEdgeTime],
      [DiffEdgeTime], [displaystr]) are left out.  The float [siTemp],
      which is written and printed in one go, is no field either: it is
      computed from the printed event where the output is spelled out.
    - What a call of [loop] reads from the outside (the pin, [micros()],
      [millis()], the volatile [EdgeTime]) comes in an [Env] record, one
      field per place of the source that reads it.
    - A store past the end of [manchester] is undefined behaviour; the
      functions that can reach it return [None] there. *)

From stdpp Require Import base numbers list strings pretty.
From Stdlib Require Import ZArith Lia Bool Floats.SpecFloat.

Local Open Scope Z_scope.

(** ** Machine integers *)

Definition to_byte (z : Z) : Z := z mod 256.
Definition to_int (z : Z) : Z := (z + 32768) mod 65536 - 32768.
Definition to_ulong (z : Z) : Z := z mod 2 ^ 32.

(** ** Configuration (globals that are never assigned) *)

Definition sDelay : Z := 242.
Definition lDelay : Z := 484.
Definition polarity : Z := 1.
Definition headerBits : Z := 10.
Definition maxBytes : Z := 6.
(** [byte manchester[7]] *)
Definition manchester_len : Z := 7.

(** ** Observable behaviour

    [Sent] is the output of a forwarded reading: [Serial] gets
    [stnId + 1], the temperature and [newHum], the display gets the same
    three.  The temperature shown is the float [0.0556 * (newTemp - 720)];
    the event keeps [newTemp], the integer it is computed from.

    [Frame] and [Reading] are history variables, not output: [Frame] marks
    an entry into the block of [add] guarded by [nosBytes == maxBytes],
    with the six bytes the block reads; [Reading] marks a call of
    [saveReading] with its arguments.  The newest event is first. *)

Inductive event : Type :=
| Frame (bytes : list Z)
| Reading (stnId newTemp newHum : Z)
| Sent (channel newTemp newHum : Z).

(** ** The globals *)

Record State : Type := {
  rxstate : Z;            (* byte *)
  tempBit : Z;            (* byte *)
  firstZero : bool;
  headerHits : Z;         (* byte *)
  dataByte : Z;           (* byte *)
  nosBits : Z;            (* byte *)
  nosBytes : Z;           (* byte *)
  manchester : list Z;    (* byte [7] *)
  dataType : Z;           (* int *)
  differencetemp : Z;     (* int *)
  differencehum : Z;      (* int *)
  Newtemp : Z;            (* int *)
  Newhum : Z;             (* int *)
  chTemp : list Z;        (* int [8] *)
  chHum : list Z;         (* int [8] *)
  chLastRecv : list Z;    (* unsigned long [8] *)
  isrcalled : bool;       (* volatile *)
  Dstop : Z;              (* unsigned long *)
  trace : list event
}.

(** Assignment to one global. *)

Definition set_rxstate (v : Z) (s : State) : State :=
  {| rxstate := v; tempBit := tempBit s; firstZero := firstZero s; headerHits := headerHits s;
     dataByte := dataByte s; nosBits := nosBits s; nosBytes := nosBytes s; manchester :=
     manchester s; dataType := dataType s; differencetemp := differencetemp s; differencehum :=
     differencehum s; Newtemp := Newtemp s; Newhum := Newhum s; chTemp := chTemp s; chHum :=
     chHum s; chLastRecv := chLastRecv s; isrcalled := isrcalled s; Dstop := Dstop s; trace :=
     trace s |}.
Definition set_tempBit (v : Z) (s : State) : State :=
  {| rxstate := rxstate s; tempBit := v; firstZero := firstZero s; headerHits := headerHits s;
     dataByte := dataByte s; nosBits := nosBits s; nosBytes := nosBytes s; manchester :=
     manchester s; dataType := dataType s; differencetemp := differencetemp s; differencehum :=
     differencehum s; Newtemp := Newtemp s; Newhum := Newhum s; chTemp := chTemp s; chHum :=
     chHum s; chLastRecv := chLastRecv s; isrcalled := isrcalled s; Dstop := Dstop s; trace :=
     trace s |}.
Definition set_firstZero (v : bool) (s : State) : State :=
  {| rxstate := rxstate s; tempBit := tempBit s; firstZero := v; headerHits := headerHits s;
     dataByte := dataByte s; nosBits := nosBits s; nosBytes := nosBytes s; manchester :=
     manchester s; dataType := dataType s; differencetemp := differencetemp s; differencehum :=
     differencehum s; Newtemp := Newtemp s; Newhum := Newhum s; chTemp := chTemp s; chHum :=
     chHum s; chLastRecv := chLastRecv s; isrcalled := isrcalled s; Dstop := Dstop s; trace :=
     trace s |}.
Definition set_headerHits (v : Z) (s : State) : State :=
  {| rxstate := rxstate s; tempBit := tempBit s; firstZero := firstZero s; headerHits := v;
     dataByte := dataByte s; nosBits := nosBits s; nosBytes := nosBytes s; manchester :=
     manchester s; dataType := dataType s; differencetemp := differencetemp s; differencehum :=
     differencehum s; Newtemp := Newtemp s; Newhum := Newhum s; chTemp := chTemp s; chHum :=
     chHum s; chLastRecv := chLastRecv s; isrcalled := isrcalled s; Dstop := Dstop s; trace :=
     trace s |}.
Definition set_dataByte (v : Z) (s : State) : State :=
  {| rxstate := rxstate s; tempBit := tempBit s; firstZero := firstZero s; headerHits :=
     headerHits s; dataByte := v; nosBits := nosBits s; nosBytes := nosBytes s; manchester :=
     manchester s; dataType := dataType s; differencetemp := differencetemp s; differencehum :=
     differencehum s; Newtemp := Newtemp s; Newhum := Newhum s; chTemp := chTemp s; chHum :=
     chHum s; chLastRecv := chLastRecv s; isrcalled := isrcalled s; Dstop := Dstop s; trace :=
     trace s |}.
Definition set_nosBits (v : Z) (s : State) : State :=
  {| rxstate := rxstate s; tempBit := tempBit s; firstZero := firstZero s; headerHits :=
     headerHits s; dataByte := dataByte s; nosBits := v; nosBytes := nosBytes s; manchester :=
     manchester s; dataType := dataType s; differencetemp := differencetemp s; differencehum :=
     differencehum s; Newtemp := Newtemp s; Newhum := Newhum s; chTemp := chTemp s; chHum :=
     chHum s; chLastRecv := chLastRecv s; isrcalled := isrcalled s; Dstop := Dstop s; trace :=
     trace s |}.
Definition set_nosBytes (v : Z) (s : State) : State :=
  {| rxstate := rxstate s; tempBit := tempBit s; firstZero := firstZero s; headerHits :=
     headerHits s; dataByte := dataByte s; nosBits := nosBits s; nosBytes := v; manchester :=
     manchester s; dataType := dataType s; differencetemp := differencetemp s; differencehum :=
     differencehum s; Newtemp := Newtemp s; Newhum := Newhum s; chTemp := chTemp s; chHum :=
     chHum s; chLastRecv := chLastRecv s; isrcalled := isrcalled s; Dstop := Dstop s; trace :=
     trace s |}.
Definition set_manchester (v : list Z) (s : State) : State :=
  {| rxstate := rxstate s; tempBit := tempBit s; firstZero := firstZero s; headerHits :=
     headerHits s; dataByte := dataByte s; nosBits := nosBits s; nosBytes := nosBytes s;
     manchester := v; dataType := dataType s; differencetemp := differencetemp s; differencehum
     := differencehum s; Newtemp := Newtemp s; Newhum := Newhum s; chTemp := chTemp s; chHum :=
     chHum s; chLastRecv := chLastRecv s; isrcalled := isrcalled s; Dstop := Dstop s; trace :=
     trace s |}.
Definition set_dataType (v : Z) (s : State) : State :=
  {| rxstate := rxstate s; tempBit := tempBit s; firstZero := firstZero s; headerHits :=
     headerHits s; dataByte := dataByte s; nosBits := nosBits s; nosBytes := nosBytes s;
     manchester := manchester s; dataType := v; differencetemp := differencetemp s; differencehum
     := differencehum s; Newtemp := Newtemp s; Newhum := Newhum s; chTemp := chTemp s; chHum :=
     chHum s; chLastRecv := chLastRecv s; isrcalled := isrcalled s; Dstop := Dstop s; trace :=
     trace s |}.
Definition set_differencetemp (v : Z) (s : State) : State :=
  {| rxstate := rxstate s; tempBit := tempBit s; firstZero := firstZero s; headerHits :=
     headerHits s; dataByte := dataByte s; nosBits := nosBits s; nosBytes := nosBytes s;
     manchester := manchester s; dataType := dataType s; differencetemp := v; differencehum :=
     differencehum s; Newtemp := Newtemp s; Newhum := Newhum s; chTemp := chTemp s; chHum :=
     chHum s; chLastRecv := chLastRecv s; isrcalled := isrcalled s; Dstop := Dstop s; trace :=
     trace s |}.
Definition set_differencehum (v : Z) (s : State) : State :=
  {| rxstate := rxstate s; tempBit := tempBit s; firstZero := firstZero s; headerHits :=
     headerHits s; dataByte := dataByte s; nosBits := nosBits s; nosBytes := nosBytes s;
     manchester := manchester s; dataType := dataType s; differencetemp := differencetemp s;
     differencehum := v; Newtemp := Newtemp s; Newhum := Newhum s; chTemp := chTemp s; chHum :=
     chHum s; chLastRecv := chLastRecv s; isrcalled := isrcalled s; Dstop := Dstop s; trace :=
     trace s |}.
Definition set_Newtemp (v : Z) (s : State) : State :=
  {| rxstate := rxstate s; tempBit := tempBit s; firstZero := firstZero s; headerHits :=
     headerHits s; dataByte := dataByte s; nosBits := nosBits s; nosBytes := nosBytes s;
     manchester := manchester s; dataType := dataType s; differencetemp := differencetemp s;
     differencehum := differencehum s; Newtemp := v; Newhum := Newhum s; chTemp := chTemp s;
     chHum := chHum s; chLastRecv := chLastRecv s; isrcalled := isrcalled s; Dstop := Dstop s;
     trace := trace s |}.
Definition set_Newhum (v : Z) (s : State) : State :=
  {| rxstate := rxstate s; tempBit := tempBit s; firstZero := firstZero s; headerHits :=
     headerHits s; dataByte := dataByte s; nosBits := nosBits s; nosBytes := nosBytes s;
     manchester := manchester s; dataType := dataType s; differencetemp := differencetemp s;
     differencehum := differencehum s; Newtemp := Newtemp s; Newhum := v; chTemp := chTemp s;
     chHum := chHum s; chLastRecv := chLastRecv s; isrcalled := isrcalled s; Dstop := Dstop s;
     trace := trace s |}.
Definition set_chTemp (v : list Z) (s : State) : State :=
  {| rxstate := rxstate s; tempBit := tempBit s; firstZero := firstZero s; headerHits :=
     headerHits s; dataByte := dataByte s; nosBits := nosBits s; nosBytes := nosBytes s;
     manchester := manchester s; dataType := dataType s; differencetemp := differencetemp s;
     differencehum := differencehum s; Newtemp := Newtemp s; Newhum := Newhum s; chTemp := v;
     chHum := chHum s; chLastRecv := chLastRecv s; isrcalled := isrcalled s; Dstop := Dstop s;
     trace := trace s |}.
Definition set_chHum (v : list Z) (s : State) : State :=
  {| rxstate := rxstate s; tempBit := tempBit s; firstZero := firstZero s; headerHits :=
     headerHits s; dataByte := dataByte s; nosBits := nosBits s; nosBytes := nosBytes s;
     manchester := manchester s; dataType := dataType s; differencetemp := differencetemp s;
     differencehum := differencehum s; Newtemp := Newtemp s; Newhum := Newhum s; chTemp := chTemp
     s; chHum := v; chLastRecv := chLastRecv s; isrcalled := isrcalled s; Dstop := Dstop s; trace
     := trace s |}.
Definition set_chLastRecv (v : list Z) (s : State) : State :=
  {| rxstate := rxstate s; tempBit := tempBit s; firstZero := firstZero s; headerHits :=
     headerHits s; dataByte := dataByte s; nosBits := nosBits s; nosBytes := nosBytes s;
     manchester := manchester s; dataType := dataType s; differencetemp := differencetemp s;
     differencehum := differencehum s; Newtemp := Newtemp s; Newhum := Newhum s; chTemp := chTemp
     s; chHum := chHum s; chLastRecv := v; isrcalled := isrcalled s; Dstop := Dstop s; trace :=
     trace s |}.
Definition set_isrcalled (v : bool) (s : State) : State :=
  {| rxstate := rxstate s; tempBit := tempBit s; firstZero := firstZero s; headerHits :=
     headerHits s; dataByte := dataByte s; nosBits := nosBits s; nosBytes := nosBytes s;
     manchester := manchester s; dataType := dataType s; differencetemp := differencetemp s;
     differencehum := differencehum s; Newtemp := Newtemp s; Newhum := Newhum s; chTemp := chTemp
     s; chHum := chHum s; chLastRecv := chLastRecv s; isrcalled := v; Dstop := Dstop s; trace :=
     trace s |}.
Definition set_Dstop (v : Z) (s : State) : State :=
  {| rxstate := rxstate s; tempBit := tempBit s; firstZero := firstZero s; headerHits :=
     headerHits s; dataByte := dataByte s; nosBits := nosBits s; nosBytes := nosBytes s;
     manchester := manchester s; dataType := dataType s; differencetemp := differencetemp s;
     differencehum := differencehum s; Newtemp := Newtemp s; Newhum := Newhum s; chTemp := chTemp
     s; chHum := chHum s; chLastRecv := chLastRecv s; isrcalled := isrcalled s; Dstop := v; trace
     := trace s |}.
Definition set_trace (v : list event) (s : State) : State :=
  {| rxstate := rxstate s; tempBit := tempBit s; firstZero := firstZero s; headerHits :=
     headerHits s; dataByte := dataByte s; nosBits := nosBits s; nosBytes := nosBytes s;
     manchester := manchester s; dataType := dataType s; differencetemp := differencetemp s;
     differencehum := differencehum s; Newtemp := Newtemp s; Newhum := Newhum s; chTemp := chTemp
     s; chHum := chHum s; chLastRecv := chLastRecv s; isrcalled := isrcalled s; Dstop := Dstop s;
     trace := v |}.

Definition log (ev : event) (s : State) : State := set_trace (ev :: trace s) s.

(** What one call of [loop] reads from outside. *)

Record Env : Type := {
  pin_wait : bool;   (* digitalRead(RxPin) in case 1 *)
  EdgeTime : Z;      (* the volatile EdgeTime, read in case 1 *)
  micros_s : Z;      (* micros() in case 2 *)
  pin_s : bool;      (* digitalRead(RxPin) in case 2 *)
  micros_l : Z;      (* micros() in case 3 *)
  pin_bit : bool;    (* digitalRead(RxPin) in case 4 *)
  millis : Z         (* millis() in saveReading *)
}.

(** [digitalRead] returns [HIGH] (1) or [LOW] (0). *)
Definition level (pin : bool) : Z := Z.b2z pin.

(** A small error monad for the out-of-bounds store. *)

Definition bind {A B : Type} (m : option A) (k : A -> option B) : option B :=
  match m with
  | Some a => k a
  | None => None
  end.

Notation "'do' x <- m ; k" := (bind m (fun x => k))
  (at level 10, x name, m at level 100, k at level 200).

(** [a[i]] and [a[i] = v] on a C array held in a list. *)

Definition rd (a : list Z) (i : Z) : Z := a !!! Z.to_nat i.
Definition wr (a : list Z) (i v : Z) : list Z := <[Z.to_nat i := v]> a.

(** [manchester[i] = v]: defined only inside the seven bytes. *)
Definition store (m : list Z) (i v : Z) : option (list Z) :=
  if (0 <=? i) && (i <? manchester_len) then Some (wr m i v) else None.

(** ** [saveReading] *)

(** The two assignments of lines 303-304 and 314-315. *)
Definition accept (stnId newTemp newHum : Z) (s : State) : State :=
  set_chHum (wr (chHum s) stnId newHum) (set_chTemp (wr (chTemp s) stnId newTemp) s).

(** Lines 301-318: the plausibility check; the second component is the
    local [sendData]. *)
Definition validate (stnId newTemp newHum : Z) (s : State) : State * bool :=
  if rd (chTemp s) stnId =? 720 then
    (accept stnId newTemp newHum s, true)
  else
    let s := set_differencetemp (to_int (newTemp - rd (chTemp s) stnId)) s in
    let s := set_differencehum (to_int (newHum - rd (chHum s) stnId)) s in
    if ((differencetemp s <? 20) && (differencetemp s >? -20))
       && ((differencehum s <? 5) && (differencehum s >? -5))
    then (accept stnId newTemp newHum s, true)
    else (s, false).

(** The condition of line 322 next to [sendData]. *)
Definition due (now stnId : Z) (s : State) : bool :=
  (rd (chLastRecv s) stnId >? now)
  || (to_ulong (now - rd (chLastRecv s) stnId) >? 1000).

(** Lines 328-345: print, stamp, draw. *)
Definition forward (now stnId newTemp newHum : Z) (s : State) : State :=
  let s := log (Sent (to_int (stnId + 1)) newTemp newHum) s in
  set_chLastRecv (wr (chLastRecv s) stnId now) s.

Definition saveReading (now : Z) (stnId newTemp newHum : Z) (s : State) : State :=
  let s := log (Reading stnId newTemp newHum) s in
  if (stnId >=? 0) && (stnId <=? 7) then
    let '(s, sendData) := validate stnId newTemp newHum s in
    if sendData && due now stnId s then forward now stnId newTemp newHum s else s
  else s.

(** ** [add] *)

(** Lines 275-284, the fields of a frame. [B01110000] is 0x70,
    [B00000111] is 7.  The detour of [Newtemp] through [float] is exact:
    the operands are integers below 2048. *)
Definition frame_stnId (m : list Z) : Z := Z.quot (Z.land (rd m 3) 0x70) 16.
Definition frame_dataType (m : list Z) : Z := rd m 1.
Definition frame_Newtemp (m : list Z) : Z := Z.land (rd m 3) 7 * 256 + rd m 4.
Definition frame_Newhum (m : list Z) : Z := rd m 5.

(** Lines 271-290: the block run when [nosBytes == maxBytes]. *)
Definition interpret (now : Z) (s : State) : State :=
  let s := log (Frame (take 6 (manchester s))) s in
  let s := set_rxstate 0 s in
  let stnId := frame_stnId (manchester s) in
  let s := set_dataType (frame_dataType (manchester s)) s in
  let s := set_Newtemp (frame_Newtemp (manchester s)) s in
  let s := set_Newhum (frame_Newhum (manchester s)) s in
  if (dataType s =? 0x45) && (Newhum s <=? 100)
  then saveReading now stnId (Newtemp s) (Newhum s) s
  else s.

(** Lines 261-268: shift the bit in, store the byte when it is full. *)
Definition shift_in (bitData : Z) (s : State) : option State :=
  let s := set_dataByte (to_byte (Z.lor (Z.shiftl (dataByte s) 1) bitData)) s in
  let s := set_nosBits (to_byte (nosBits s + 1)) s in
  if nosBits s =? 8 then
    let s := set_nosBits 0 s in
    do m <- store (manchester s) (nosBytes s) (dataByte s);
    Some (set_nosBytes (to_byte (nosBytes s + 1)) (set_manchester m s))
  else Some s.

Definition add (now : Z) (bitData : Z) (s : State) : option State :=
  do s <- shift_in bitData s;
  if nosBytes s =? maxBytes then Some (interpret now s) else Some s.

(** ** [loop] *)

(** Lines 252-253, the end of case 4. *)
Definition next_bit (s : State) : State := set_isrcalled false (set_rxstate 1 s).

(** Lines 225-253: what is done with a resolved bit. *)
Definition dispatch (now : Z) (s : State) : option State :=
  let bitState := to_byte (Z.lxor (tempBit s) polarity) in
  if bitState =? 1 then
    if negb (firstZero s) then
      Some (next_bit (set_headerHits (to_byte (headerHits s + 1)) s))
    else
      do s <- add now bitState s; Some (next_bit s)
  else
    if headerHits s <? headerBits then
      Some (set_rxstate 0 s)
    else
      do s <- add now bitState (set_firstZero true s); Some (next_bit s).

Definition case4 (e : Env) (s : State) : option State :=
  let s := if level (pin_bit e) =? tempBit s
           then set_tempBit (to_byte (Z.lxor (tempBit s) 1)) s else s in
  dispatch (millis e) s.

Definition case3 (e : Env) (s : State) : option State :=
  if micros_l e >? Dstop s then case4 e (set_rxstate 4 s) else Some s.

Definition case2 (e : Env) (s : State) : option State :=
  if micros_s e >? Dstop s then
    if negb (level (pin_s e) =? tempBit s) then Some (set_rxstate 0 s)
    else case3 e (set_rxstate 3 (set_Dstop (to_ulong (Dstop s + lDelay)) s))
  else Some s.

Definition case1 (e : Env) (s : State) : option State :=
  if level (pin_wait e) =? tempBit s then
    case2 e (set_rxstate 2 (set_Dstop (to_ulong (EdgeTime e + sDelay)) s))
  else Some s.

Definition case0 (e : Env) (s : State) : option State :=
  let s := set_tempBit polarity s in
  let s := set_firstZero false s in
  let s := set_headerHits 0 s in
  let s := set_nosBits 6 s in
  let s := set_nosBytes 0 s in
  let s := set_rxstate (to_byte (rxstate s + 1)) s in
  let s := set_isrcalled false s in
  case1 e s.

Definition loop (e : Env) (s : State) : option State :=
  match rxstate s with
  | 0 => case0 e s
  | 1 => case1 e s
  | 2 => case2 e s
  | 3 => case3 e s
  | 4 => case4 e s
  | _ => Some s
  end.

(** The globals after [setup]: [eraseManchester] writes [j] into the first
    four bytes, the channel tables get 720, 0 and 0. *)
Definition power_on : State :=
  {| rxstate := 0; tempBit := 1; firstZero := false; headerHits := 0;
     dataByte := 0; nosBits := 6; nosBytes := 0; manchester := [0; 1; 2; 3; 0; 0; 0];
     dataType := 0; differencetemp := 0; differencehum := 0; Newtemp := 0; Newhum := 0;
     chTemp := replicate 8 720; chHum := replicate 8 0; chLastRecv := replicate 8 0;
     isrcalled := false; Dstop := 0; trace := [] |}.

(** ** Driving the receiver with resolved bits

    [clean s b now] is an [Env] under which one call of [loop], entered in
    case 0 or case 1, runs through to case 4 and resolves one bit: the pin
    shows the awaited level [tempBit] in cases 1 and 2, both delays have
    passed when they are tested, and the pin shows [b] in case 4.  With
    [polarity = 1] the bit resolved in case 4 is the level read there. *)

Definition clean (s : State) (b : bool) (now : Z) : Env :=
  let tb := if rxstate s =? 0 then polarity else tempBit s in
  {| pin_wait := Z.odd tb; EdgeTime := 0; micros_s := sDelay + 1; pin_s := Z.odd tb;
     micros_l := sDelay + lDelay + 1; pin_bit := b; millis := now |}.

Fixpoint feed (now : Z) (bits : list bool) (s : State) : option State :=
  match bits with
  | [] => Some s
  | b :: bits => do s <- loop (clean s b now) s; feed now bits s
  end.

(** The frames handed to the interpreter so far, newest first. *)
Fixpoint frames (tr : list event) : list (list Z) :=
  match tr with
  | [] => []
  | Frame f :: tr => f :: frames tr
  | _ :: tr => frames tr
  end.

(** Bits to a number, most significant bit first. *)
Definition pack (bits : list bool) : Z :=
  fold_left (fun a b => 2 * a + Z.b2z b) bits 0.

Definition bits_of_byte (v : Z) : list bool :=
  map (fun i => Z.testbit v (Z.of_nat i)) [7; 6; 5; 4; 3; 2; 1; 0]%nat.


(** ** Vocabulary of the statements *)

(** [tempBit] holds a pin level. *)
Definition bit_ok (s : State) : Prop := tempBit s = 0 \/ tempBit s = 1.

(** The assignments of case 0. *)
Definition reset (s : State) : State :=
  set_isrcalled false (set_rxstate 1 (set_nosBytes 0 (set_nosBits 6
    (set_headerHits 0 (set_firstZero false (set_tempBit polarity s)))))).

(** The state in which case 4 dispatches the bit [b]. *)
Definition arrive (b : bool) (s : State) : State :=
  set_tempBit (level (negb b)) (set_rxstate 4 (set_Dstop (sDelay + lDelay) s)).

(** The local [sendData] at line 320. *)
Definition marked (stnId newTemp newHum : Z) (s : State) : bool :=
  snd (validate stnId newTemp newHum s).

(** Both conditions of line 322. *)
Definition forwarded (now stnId newTemp newHum : Z) (s : State) : bool :=
  marked stnId newTemp newHum s && due now stnId s.

(** Channel 0 tracking a reading of 1000 / 50 since time 0. *)
Definition tracking : State :=
  set_chHum (wr (chHum power_on) 0 50) (set_chTemp (wr (chTemp power_on) 0 1000) power_on).

(** Channel 0 after the sample reading 1099 / 11 was forwarded at 5000 ms. *)
Definition sent_at_5000 : State := saveReading 5000 0 1099 11 power_on.

(** The calls of [saveReading] so far, newest first. *)
Fixpoint readings (tr : list event) : list (Z * Z * Z) :=
  match tr with
  | [] => []
  | Reading c t h :: tr => (c, t, h) :: readings tr
  | _ :: tr => readings tr
  end.

Definition is_byte (v : Z) : Prop := 0 <= v < 256.

(** [manchester] as declared: seven bytes. *)
Definition wf_buffer (m : list Z) : Prop :=
  length m = 7%nat /\ Forall is_byte m.

(** One bit short of a full frame: five bytes stored, seven bits of the
    sixth shifted in.  The bytes are those of the sample packet in the
    header comment of the sketch. *)
Definition last_bit_due : State :=
  set_dataByte 0x05 (set_nosBits 7 (set_nosBytes 5 (set_firstZero true (set_headerHits 10
    (set_rxstate 4 (set_manchester [0xFD; 0x45; 0x4F; 0x04; 0x4B; 0; 0] power_on)))))).

(** [last_bit_due] after the last bit, a one, at 5000 ms. *)
Definition sample_done : State := default power_on (add 5000 1 last_bit_due).


(** [dataByte] after one more bit. *)
Definition shl (d : Z) (b : bool) : Z := to_byte (Z.lor (Z.shiftl d 1) (level b)).

(** The receiver between two bits (in case 1), with the values of the
    assembler's variables, and with nothing logged since [s0]. *)
Record phase (s0 s : State) (fz : bool) (hh d nb k : Z) (m : list Z) : Prop := Phase {
  ph_rx : rxstate s = 1;
  ph_tb : bit_ok s;
  ph_fz : firstZero s = fz;
  ph_hh : headerHits s = hh;
  ph_d : dataByte s = d;
  ph_nb : nosBits s = nb;
  ph_k : nosBytes s = k;
  ph_m : manchester s = m;
  ph_tr : trace s = trace s0
}.

(** [a] extended by bits, most significant first. *)
Definition packfrom (a : Z) (bits : list bool) : Z :=
  fold_left (fun a b => 2 * a + Z.b2z b) bits a.

(** The six bytes after the header in the sample packet of the sketch's
    header comment, and a header of ten ones with the zero that ends it. *)
Definition sample_bytes : list Z := [0x45; 0x4F; 0x04; 0x4B; 0x0B; 0x52].
Definition header10 : list bool := replicate 10 true ++ [false].

(** The receiver three ones into a header. *)
Definition three_ones : State := default power_on (feed 0 [true; true; true] power_on).

(** ** [isr], [eraseManchester], [setup] *)

(** Lines 152-159.  The volatile [EdgeTime] is kept beside the globals;
    [us] is what [micros()] returns. *)
Definition isr (us : Z) (g : State * Z) : State * Z :=
  if negb (isrcalled (fst g)) then (set_isrcalled true (fst g), us) else g.

(** Lines 350-356: [j] runs over 0, 1, 2, 3; the stores stay inside the
    array. *)
Definition eraseManchester (s : State) : State :=
  fold_left (fun s j => set_manchester (wr (manchester s) j (to_byte j)) s) [0; 1; 2; 3] s.

(** [a[0] = a[1] = ... = a[7] = v]: the assignments run from the right. *)
Definition fill8 (v : Z) (a : list Z) : list Z :=
  fold_left (fun a i => wr a i v) [7; 6; 5; 4; 3; 2; 1; 0] a.

(** Lines 140-143 of [setup]; the rest of [setup] talks to the serial
    port, the display and the pin hardware. *)
Definition setup (s : State) : State :=
  let s := eraseManchester s in
  let s := set_chTemp (fill8 720 (chTemp s)) s in
  let s := set_chHum (fill8 0 (chHum s)) s in
  set_chLastRecv (fill8 0 (chLastRecv s)) s.

(** The globals as their initialisers leave them, before [setup]. *)
Definition boot : State :=
  {| rxstate := 0; tempBit := 1; firstZero := false; headerHits := 0;
     dataByte := 0; nosBits := 6; nosBytes := 0; manchester := replicate 7 0;
     dataType := 0; differencetemp := 0; differencehum := 0; Newtemp := 0; Newhum := 0;
     chTemp := replicate 8 0; chHum := replicate 8 0; chLastRecv := replicate 8 0;
     isrcalled := false; Dstop := 0; trace := [] |}.

(** ** Reachable states and what holds in them *)

Definition is_ulong (z : Z) : Prop := 0 <= z < 2 ^ 32.

(** The clock readings are [unsigned long]s. *)
Definition env_ok (e : Env) : Prop :=
  is_ulong (EdgeTime e) /\ is_ulong (micros_s e) /\ is_ulong (micros_l e)
  /\ is_ulong (millis e).

(** The states of the sketch: after [setup], then calls of [loop], with the
    interrupt routine in between. *)
Inductive reachable : State -> Prop :=
| reach_setup : reachable power_on
| reach_loop (e : Env) (s s' : State) :
    reachable s -> env_ok e -> loop e s = Some s' -> reachable s'
| reach_isr (us edge : Z) (s : State) :
    reachable s -> reachable (fst (isr us (s, edge))).

(** What [add] can hand to [saveReading]. *)
Definition temp_ok (t : Z) : Prop := 0 <= t <= 2047.
Definition hum_ok (h : Z) : Prop := 0 <= h <= 100.

Definition event_ok (ev : event) : Prop :=
  match ev with
  | Frame f => length f = 6%nat /\ Forall is_byte f
  | Reading c t h => 0 <= c <= 7 /\ temp_ok t /\ hum_ok h
  | Sent ch t h => 1 <= ch <= 8 /\ temp_ok t /\ hum_ok h
  end.

Record sync_inv (s : State) : Prop := SyncInv {
  si_rx : 0 <= rxstate s <= 3;
  si_tb : bit_ok s;
  si_hh : is_byte (headerHits s);
  si_fz : firstZero s = true -> headerBits <= headerHits s;
  si_D : is_ulong (Dstop s)
}.

Record buf_inv (s : State) : Prop := BufInv {
  bi_d : is_byte (dataByte s);
  bi_nb : 0 <= nosBits s <= 7;
  bi_k : 0 <= nosBytes s <= 7;
  bi_m : wf_buffer (manchester s)
}.

Record chan_inv (s : State) : Prop := ChanInv {
  ci_lt : length (chTemp s) = 8%nat;
  ci_lh : length (chHum s) = 8%nat;
  ci_ll : length (chLastRecv s) = 8%nat;
  ci_t : Forall temp_ok (chTemp s);
  ci_h : Forall hum_ok (chHum s);
  ci_l : Forall is_ulong (chLastRecv s);
  ci_tr : Forall event_ok (trace s)
}.

Definition inv (s : State) : Prop := sync_inv s /\ buf_inv s /\ chan_inv s.

(** The layout of the header comment of the sketch (lines 53-66): byte 3
    is [b CCC TTTT], byte 4 is [TTTTTTTT]; [batt] is one bit, [chan] three
    bits, [temp] twelve bits. *)
Definition layout_byte3 (batt chan temp : Z) : Z := batt * 128 + chan * 16 + temp / 256.
Definition layout_byte4 (temp : Z) : Z := temp mod 256.

(** The trace events of one kind. *)
Definition is_Sent (ev : event) : bool :=
  match ev with Sent _ _ _ => true | _ => false end.

(** The sample packet received from power-on at 5000 ms. *)
Definition sample_received : State :=
  default power_on
    (feed 5000 (header10 ++ true :: concat (map bits_of_byte [0x45; 0x4F; 0x04; 0x4B; 0x0B]))
       power_on).

(** [sync_inv] without the bound on [rxstate], for the states inside a
    call of [loop]. *)
Definition sync_rest (s : State) : Prop :=
  bit_ok s /\ is_byte (headerHits s)
  /\ (firstZero s = true -> headerBits <= headerHits s) /\ is_ulong (Dstop s).

(** Two states with the same buffer, accumulator, channel tables and
    trace. *)
Definition same_store (s s' : State) : Prop :=
  trace s' = trace s /\ chTemp s' = chTemp s /\ chHum s' = chHum s
  /\ chLastRecv s' = chLastRecv s /\ manchester s' = manchester s
  /\ dataByte s' = dataByte s.

(** How a call of [loop] ends: without touching the store, or with one
    call of [add] followed by the end of case 4. *)
Definition quiet_or_add (e : Env) (s s' : State) : Prop :=
  (same_store s s' /\ (isrcalled s' = isrcalled s \/ isrcalled s' = false))
  \/ exists b s0 s1,
       same_store s s0 /\ add (millis e) b s0 = Some s1 /\ s' = next_bit s1.

(** [shift_in] over a list of bits. *)
Fixpoint shift_all (bits : list bool) (s : State) : option State :=
  match bits with
  | [] => Some s
  | b :: bits => do s <- shift_in (level b) s; shift_all bits s
  end.

(** The receiver waiting in case 1 with an edge recorded, and an [Env] in
    which the pin does not show the awaited level. *)
Definition waiting_flagged : State := set_isrcalled true (set_rxstate 1 power_on).
Definition idle_env : Env :=
  {| pin_wait := false; EdgeTime := 0; micros_s := 0; pin_s := false; micros_l := 0;
     pin_bit := false; millis := 0 |}.

(** Power-on, a header, the zero and 56 ones: one bit before the store
    past the end of the buffer. *)
Definition buffer_full : State :=
  default power_on (feed 5000 (header10 ++ replicate 56 true) power_on).

(** [sample_received] one bit later. *)
Definition sample_reread : State :=
  default power_on (loop (clean sample_received true 5000) sample_received).

(** The receiver in the middle of a payload byte, and an [Env] in which
    the level changes during the short delay. *)
Definition mid_frame : State :=
  default power_on (feed 5000 (header10 ++ replicate 20 true) power_on).
Definition early_change : Env :=
  {| pin_wait := false; EdgeTime := 1000; micros_s := 1243; pin_s := true;
     micros_l := 1727; pin_bit := true; millis := 5000 |}.

(** [e] passes the tests of cases 1 to 3 when the awaited level is [tb]:
    the pin shows it in case 1 and still at the end of the short delay, and
    both delays are over when [micros()] is read. *)
Definition passes (e : Env) (tb : Z) : Prop :=
  level (pin_wait e) = tb /\ level (pin_s e) = tb
  /\ micros_s e > to_ulong (EdgeTime e + sDelay)
  /\ micros_l e > to_ulong (to_ulong (EdgeTime e + sDelay) + lDelay).

(** A state without its deadline. *)
Definition but_Dstop (o : option State) : option State :=
  match o with
  | Some s => Some (set_Dstop 0 s)
  | None => None
  end.

(** An [Env] that passes with other clock readings than [clean]. *)
Definition late_env : Env :=
  {| pin_wait := true; EdgeTime := 4294967000; micros_s := 4294967290; pin_s := true;
     micros_l := 4294967295; pin_bit := true; millis := 5000 |}.

(** ** What the sink is given

    On the AVR [float] and [double] are both IEEE binary32: 24 bits of
    precision, infinities at exponent 128. *)

Definition float_of_int (z : Z) : spec_float := binary_normalize 24 128 z 0 false.

(** The literal [0.0556]: the binary32 number nearest to 556 / 10000. *)
Definition lit_0_0556 : spec_float := S754_finite false 14925011 (-28).

(** Line 331: [siTemp = 0.0556 * (newTemp - 720)]; the difference is an
    [int], converted without error. *)
Definition siTemp (newTemp : Z) : spec_float :=
  SFmul 24 128 lit_0_0556 (float_of_int (to_int (newTemp - 720))).

(** Modelled from the documentation of the Arduino core and of avr-libc,
    the code of the two printing routines not being part of the sketch:
    [Serial.print] of a float prints it in decimal with two digits after
    the point, [dtostrf (v, 2, 1, s)] writes it in the format [-]d.d with
    one digit after the point.  Both are taken to print the decimal nearest
    to the value of the float; [to_decimals d x] is that decimal as a
    multiple of 10^-d, the half-way case rounded away from zero.  (The
    documentation does not settle the half-way case.  It occurs for the
    display at the raw temperatures 95 and 1345 only, where rounding to even
    gives the same digit, and never for the serial line: [no_half_way].) *)
Definition to_decimals (d : nat) (x : spec_float) : option Z :=
  match x with
  | S754_zero _ => Some 0
  | S754_finite sign m e =>
      let num := Z.pos m * 10 ^ Z.of_nat d in
      let n := if 0 <=? e then num * 2 ^ e
               else (2 * num + 2 ^ (- e)) / (2 * 2 ^ (- e)) in
      Some (if sign then - n else n)
  | S754_infinity _ | S754_nan => None
  end.

(** The other choice in the half-way case: to the even digit. *)
Definition to_decimals_even (d : nat) (x : spec_float) : option Z :=
  match x with
  | S754_zero _ => Some 0
  | S754_finite sign m e =>
      let num := Z.pos m * 10 ^ Z.of_nat d in
      let n := if 0 <=? e then num * 2 ^ e
               else let q := num / 2 ^ (- e) in
                    let r := 2 * (num mod 2 ^ (- e)) in
                    if r <? 2 ^ (- e) then q
                    else if 2 ^ (- e) <? r then q + 1
                    else if Z.even q then q else q + 1 in
      Some (if sign then - n else n)
  | S754_infinity _ | S754_nan => None
  end.

(** [d] decimal digits of [n], leading zeros kept. *)
Fixpoint digits (d : nat) (n : Z) : string :=
  match d with
  | O => ""
  | S d' => digits d' (n / 10) +:+ pretty (n mod 10)
  end.

(** The text of [n] * 10^-d with [d] digits after the point. *)
Definition fixed (d : nat) (n : Z) : string :=
  (if n <? 0 then "-" else "")
  +:+ pretty (Z.abs n / 10 ^ Z.of_nat d) +:+ "." +:+ digits d (Z.abs n mod 10 ^ Z.of_nat d).

(** Lines 328-334: the line written to [Serial], without its line end.
    The channel and the humidity are [int]s, printed in decimal. *)
Definition serial_text (ev : event) : option string :=
  match ev with
  | Sent channel newTemp newHum =>
      match to_decimals 2 (siTemp newTemp) with
      | Some n => Some (pretty channel +:+ ":" +:+ fixed 2 n +:+ ":" +:+ pretty newHum)
      | None => None
      end
  | _ => None
  end.

(** Lines 337-345: the four texts drawn on the display, each with its
    column and row.  The glyph is the character ['1' + stnId], that is
    ['0'] plus the channel number of the event.  The width 2 given to
    [dtostrf] is a minimum and the 15 given to [snprintf] a maximum; neither
    is reached ([tempstr_fits]), so the texts are neither padded nor cut. *)
Definition display_text (ev : event) : option (list (Z * Z * string)) :=
  match ev with
  | Sent channel newTemp newHum =>
      match to_decimals 1 (siTemp newTemp) with
      | Some n =>
          Some [(0, 0, String (Ascii.ascii_of_N (Z.to_N (48 + channel))) "");
                (2, 0, ": ");
                (4, 0, fixed 1 n +:+ " ");
                (0, 4, pretty newHum +:+ "  ")]
      | None => None
      end
  | _ => None
  end.

(** The raw temperatures [add] can deliver. *)
Definition raw_temperatures : list Z := map Z.of_nat (seq 0 2048).

(** For one raw temperature: the two decimals exist, the hundredth is the
    one nearest to 0.0556 * (t - 720), the tenth is within half a tenth of
    it, rounding to even would print the same, and the text of the tenth
    has two to five characters. *)
Definition decimals_ok (t : Z) : bool :=
  match to_decimals 2 (siTemp t), to_decimals 1 (siTemp t) with
  | Some n2, Some n1 =>
      (Z.abs (100 * n2 - 556 * (t - 720)) <? 50)
      && (Z.abs (1000 * n1 - 556 * (t - 720)) <=? 500)
      && bool_decide (to_decimals_even 2 (siTemp t) = Some n2)
      && bool_decide (to_decimals_even 1 (siTemp t) = Some n1)
      && (2 <=? String.length (fixed 1 n1))%nat
      && (String.length (fixed 1 n1) <=? 5)%nat
  | _, _ => false
  end.
(** * Proofs *)

(** Reduce projections of assignments, and nothing else. *)
Ltac fields :=
  cbn [rxstate tempBit firstZero headerHits dataByte nosBits nosBytes manchester
       dataType differencetemp differencehum Newtemp Newhum chTemp chHum chLastRecv
       isrcalled Dstop trace
       set_rxstate set_tempBit set_firstZero set_headerHits set_dataByte set_nosBits
       set_nosBytes set_manchester set_dataType set_differencetemp set_differencehum
       set_Newtemp set_Newhum set_chTemp set_chHum set_chLastRecv set_isrcalled
       set_Dstop set_trace log next_bit arrive reset bind negb andb orb].


(** ** Arrays *)

Lemma rd_wr_eq (a : list Z) (i v : Z) :
  (Z.to_nat i < length a)%nat -> rd (wr a i v) i = v.
Proof. intros H. unfold rd, wr. by rewrite list_lookup_total_insert_eq. Qed.

Lemma rd_wr_ne (a : list Z) (i j v : Z) :
  0 <= i -> 0 <= j -> i <> j -> rd (wr a i v) j = rd a j.
Proof.
  intros Hi Hj Hne. unfold rd, wr.
  rewrite list_lookup_total_insert_ne; [done | lia].
Qed.

Lemma length_wr (a : list Z) (i v : Z) : length (wr a i v) = length a.
Proof. apply length_insert. Qed.

(** ** One pass of [loop] under a clean [Env] *)


Lemma loop_clean_wait (s : State) (b : bool) (now : Z) :
  rxstate s = 1 -> bit_ok s ->
  loop (clean s b now) s = dispatch now (arrive b s).
Proof.
  intros Hrx Htb. unfold bit_ok in Htb. destruct s; simpl in *; subst.
  unfold loop, clean; simpl.
  destruct Htb as [-> | ->], b; reflexivity.
Qed.

Lemma loop_clean_reset (s : State) (b : bool) (now : Z) :
  rxstate s = 0 ->
  loop (clean s b now) s = dispatch now (arrive b (reset s)).
Proof.
  intros Hrx. destruct s; simpl in *; subst.
  unfold loop, clean; simpl. destruct b; reflexivity.
Qed.

(** The other ways through [loop].  Whatever the clock readings, an [Env]
    that passes the three tests of cases 1 to 3 reaches case 4; [clean] is
    one such [Env]. *)

Lemma loop_resolves (e : Env) (s : State) :
  rxstate s = 1 ->
  level (pin_wait e) = tempBit s -> level (pin_s e) = tempBit s ->
  micros_s e > to_ulong (EdgeTime e + sDelay) ->
  micros_l e > to_ulong (to_ulong (EdgeTime e + sDelay) + lDelay) ->
  loop e s
  = case4 e (set_rxstate 4 (set_rxstate 3
      (set_Dstop (to_ulong (to_ulong (EdgeTime e + sDelay) + lDelay))
        (set_rxstate 2 (set_Dstop (to_ulong (EdgeTime e + sDelay)) s))))).
Proof.
  intros Hrx Hw Hs Hts Htl. unfold loop, case1, case2, case3. rewrite Hrx.
  rewrite Hw, Z.eqb_refl. fields.
  assert (E1 : (micros_s e >? to_ulong (EdgeTime e + sDelay)) = true) by lia.
  rewrite E1, Hs, Z.eqb_refl. fields.
  assert (E2 : (micros_l e >? to_ulong (to_ulong (EdgeTime e + sDelay) + lDelay)) = true)
    by lia.
  by rewrite E2.
Qed.

(** Case 1 polls until the pin shows the awaited level. *)
Lemma loop_polls (e : Env) (s : State) :
  rxstate s = 1 -> level (pin_wait e) <> tempBit s -> loop e s = Some s.
Proof.
  intros Hrx Hw. unfold loop, case1. rewrite Hrx.
  assert (E : (level (pin_wait e) =? tempBit s) = false) by lia. by rewrite E.
Qed.

(** Case 2: a level that changed before the short delay was over abandons
    the frame. *)
Lemma loop_too_early (e : Env) (s : State) :
  rxstate s = 2 -> micros_s e > Dstop s -> level (pin_s e) <> tempBit s ->
  loop e s = Some (set_rxstate 0 s).
Proof.
  intros Hrx Ht Hs. unfold loop, case2. rewrite Hrx.
  assert (E1 : (micros_s e >? Dstop s) = true) by lia.
  assert (E2 : (level (pin_s e) =? tempBit s) = false) by lia.
  by rewrite E1, E2.
Qed.

(** ** Machine integers in range *)

Lemma to_int_small (z : Z) : -32768 <= z <= 32767 -> to_int z = z.
Proof. intros H. unfold to_int. rewrite Z.mod_small; lia. Qed.

Lemma to_ulong_small (z : Z) : 0 <= z < 2 ^ 32 -> to_ulong z = z.
Proof. intros H. unfold to_ulong. by rewrite Z.mod_small. Qed.

Lemma to_byte_small (z : Z) : 0 <= z < 256 -> to_byte z = z.
Proof. intros H. unfold to_byte. by rewrite Z.mod_small. Qed.

Lemma to_byte_range (z : Z) : 0 <= to_byte z < 256.
Proof. unfold to_byte. apply Z.mod_pos_bound. lia. Qed.

(** ** The channel filter *)


Lemma saveReading_effect (now c t h : Z) (s : State) :
  0 <= c <= 7 ->
  let s' := saveReading now c t h s in
  let a := marked c t h s in
  let f := forwarded now c t h s in
  chTemp s' = (if a then wr (chTemp s) c t else chTemp s)
  /\ chHum s' = (if a then wr (chHum s) c h else chHum s)
  /\ chLastRecv s' = (if f then wr (chLastRecv s) c now else chLastRecv s)
  /\ trace s' = (if f then [Sent (c + 1) t h] else []) ++ Reading c t h :: trace s.
Proof.
  intros Hc. unfold forwarded, marked, saveReading.
  assert (Hg : (c >=? 0) && (c <=? 7) = true) by lia. rewrite Hg.
  assert (Hc1 : to_int (c + 1) = c + 1) by (apply to_int_small; lia).
  destruct s; unfold validate, due, forward, accept, log; simpl.
  repeat (match goal with |- context [if ?b then _ else _] => destruct b eqn:? end;
          simpl; rewrite ?Hc1; try done).
Qed.

Lemma saveReading_frame (now c t h : Z) (s : State) :
  manchester (saveReading now c t h s) = manchester s
  /\ dataType (saveReading now c t h s) = dataType s
  /\ Newtemp (saveReading now c t h s) = Newtemp s
  /\ Newhum (saveReading now c t h s) = Newhum s
  /\ nosBytes (saveReading now c t h s) = nosBytes s
  /\ frames (trace (saveReading now c t h s)) = frames (trace s).
Proof.
  destruct s; unfold saveReading, validate, due, forward, accept, log; simpl.
  repeat (match goal with |- context [if ?b then _ else _] => destruct b eqn:? end;
          simpl; try done).
Qed.

Lemma saveReading_out_of_range (now c t h : Z) (s : State) :
  ~ 0 <= c <= 7 -> saveReading now c t h s = log (Reading c t h) s.
Proof.
  intros Hc. unfold saveReading.
  assert (Hg : (c >=? 0) && (c <=? 7) = false) by lia. by rewrite Hg.
Qed.

Lemma marked_sentinel (c t h : Z) (s : State) :
  rd (chTemp s) c = 720 -> marked c t h s = true.
Proof.
  intros H. unfold marked, validate. by rewrite H.
Qed.

Lemma marked_delta (c t h : Z) (s : State) :
  rd (chTemp s) c <> 720 ->
  -32768 <= t - rd (chTemp s) c <= 32767 ->
  -32768 <= h - rd (chHum s) c <= 32767 ->
  marked c t h s = true
  <-> (-20 < t - rd (chTemp s) c < 20 /\ -5 < h - rd (chHum s) c < 5).
Proof.
  intros Hne Ht Hh. unfold marked, validate.
  destruct (rd (chTemp s) c =? 720) eqn:E; [lia |].
  destruct s; simpl in *.
  rewrite !to_int_small by done.
  match goal with |- context [if ?b then _ else _] => destruct b eqn:Hb end; simpl; lia.
Qed.

(** ** Claims on [saveReading] *)

(** C8. On a channel whose stored raw temperature is the sentinel 720,
    every reading is accepted whatever its values: it is marked for send,
    it becomes the stored temperature and humidity of the channel, and
    whether it is forwarded is decided by the rate limit alone. *)
Theorem first_reading_accepted (now c t h : Z) (s : State) :
  0 <= c <= 7 ->
  length (chTemp s) = 8%nat -> length (chHum s) = 8%nat ->
  rd (chTemp s) c = 720 ->
  marked c t h s = true
  /\ rd (chTemp (saveReading now c t h s)) c = t
  /\ rd (chHum (saveReading now c t h s)) c = h
  /\ forwarded now c t h s = due now c s.
Proof.
  intros Hc Ht Hh Hs.
  pose proof (marked_sentinel c t h s Hs) as Hm.
  destruct (saveReading_effect now c t h s Hc) as (Et & Eh & _ & _).
  rewrite Hm in Et, Eh. rewrite Et, Eh.
  repeat split; try done.
  - apply rd_wr_eq. lia.
  - apply rd_wr_eq. lia.
  - unfold forwarded. by rewrite Hm.
Qed.

Lemma first_reading_accepted_witness :
  marked 0 1099 11 power_on = true
  /\ rd (chTemp (saveReading 5000 0 1099 11 power_on)) 0 = 1099
  /\ rd (chHum (saveReading 5000 0 1099 11 power_on)) 0 = 11
  /\ forwarded 5000 0 1099 11 power_on = due 5000 0 power_on.
Proof.
  apply (first_reading_accepted 5000 0 1099 11 power_on);
    [lia | reflexivity | reflexivity | reflexivity].
Defined.

(** C7. On a channel whose stored raw temperature is not the sentinel, a
    reading is accepted and marked for send exactly when the temperature
    difference (new minus stored) lies strictly between -20 and 20 and the
    humidity difference strictly between -5 and 5.  A reading in the
    window is accepted: it becomes the stored temperature and humidity of
    the channel, and it is printed if the rate limit lets it through.  A
    rejected reading changes none of the three channel tables and produces
    no output; the call returns normally.  The differences are 16-bit
    [int]s; the hypotheses say that they are representable, as they are
    for every reading [add] can deliver. *)
Theorem plausibility_window (now c t h : Z) (s : State) :
  0 <= c <= 7 ->
  length (chTemp s) = 8%nat -> length (chHum s) = 8%nat ->
  rd (chTemp s) c <> 720 ->
  -32768 <= t - rd (chTemp s) c <= 32767 ->
  -32768 <= h - rd (chHum s) c <= 32767 ->
  (marked c t h s = true
   <-> -20 < t - rd (chTemp s) c < 20 /\ -5 < h - rd (chHum s) c < 5)
  /\ (-20 < t - rd (chTemp s) c < 20 /\ -5 < h - rd (chHum s) c < 5 ->
      rd (chTemp (saveReading now c t h s)) c = t
      /\ rd (chHum (saveReading now c t h s)) c = h
      /\ trace (saveReading now c t h s)
         = (if due now c s then [Sent (c + 1) t h] else []) ++ Reading c t h :: trace s)
  /\ (marked c t h s = false ->
      chTemp (saveReading now c t h s) = chTemp s
      /\ chHum (saveReading now c t h s) = chHum s
      /\ chLastRecv (saveReading now c t h s) = chLastRecv s
      /\ trace (saveReading now c t h s) = Reading c t h :: trace s).
Proof.
  intros Hc Hlt Hlh Hne Ht Hh.
  pose proof (marked_delta c t h s Hne Ht Hh) as Hiff.
  destruct (saveReading_effect now c t h s Hc) as (Et & Eh & El & Etr).
  unfold forwarded in El, Etr.
  split; [exact Hiff |]. split.
  - intros Hw. apply Hiff in Hw. rewrite Hw in Et, Eh, Etr. cbn [andb] in Etr.
    rewrite Et, Eh. split; [apply rd_wr_eq; lia |]. split; [apply rd_wr_eq; lia | done].
  - intros Hm. rewrite Hm in *. simpl in *. done.
Qed.

Lemma plausibility_window_witness :
  (-20 < 1019 - rd (chTemp tracking) 0 < 20 /\ -5 < 52 - rd (chHum tracking) 0 < 5)
  /\ marked 0 1019 52 tracking = true
  /\ rd (chTemp (saveReading 5000 0 1019 52 tracking)) 0 = 1019
  /\ rd (chHum (saveReading 5000 0 1019 52 tracking)) 0 = 52
  /\ trace (saveReading 5000 0 1019 52 tracking)
     = (if due 5000 0 tracking then [Sent (0 + 1) 1019 52] else [])
       ++ Reading 0 1019 52 :: trace tracking.
Proof.
  assert (Hw : -20 < 1019 - rd (chTemp tracking) 0 < 20
               /\ -5 < 52 - rd (chHum tracking) 0 < 5).
  { vm_compute. repeat split. }
  split; [exact Hw |].
  destruct (plausibility_window 5000 0 1019 52 tracking) as (Hiff & Hacc & _);
    [lia | reflexivity | reflexivity | vm_compute; discriminate
     | vm_compute; split; discriminate | vm_compute; split; discriminate |].
  split; [by apply Hiff | by apply Hacc].
Defined.

(** The two readings of the spec's example, against 1000 / 50. *)
Example delta_21_rejected : marked 0 1021 52 tracking = false.
Proof. reflexivity. Qed.

Example delta_19_accepted : marked 0 1019 52 tracking = true.
Proof. reflexivity. Qed.

(** C3, as stated, fails when exactly 1000 ms have passed: channel 0
    forwarded a reading at 5000 ms; the same reading at 6000 ms is marked
    for send and 6000 - 5000 >= 1000, yet it is not forwarded. *)
Lemma rate_limit_counterexample :
  marked 0 1099 11 sent_at_5000 = true
  /\ rd (chLastRecv sent_at_5000) 0 = 5000
  /\ ~ (forwarded 6000 0 1099 11 sent_at_5000 = true
        <-> (rd (chLastRecv sent_at_5000) 0 > 6000
             \/ 6000 - rd (chLastRecv sent_at_5000) 0 >= 1000)).
Proof.
  split; [reflexivity |]. split; [reflexivity |].
  intros [_ H].
  assert (Hf : forwarded 6000 0 1099 11 sent_at_5000 = false) by reflexivity.
  rewrite H in Hf; [discriminate |].
  right. vm_compute. discriminate.
Qed.

(** C3, amended. A reading marked for send on channel c is forwarded
    exactly when the stored last-send timestamp is greater than the current
    time or more than 1000 ms have passed since it.  A forwarded reading is
    printed and stamps the channel; one that is not forwarded does neither.
    Hence, after a forward at [now], a marked reading at a later time
    [now2] is forwarded exactly when [now2 - now > 1000]. *)
Theorem rate_limit (now c t h : Z) (s : State) :
  0 <= c <= 7 ->
  length (chLastRecv s) = 8%nat ->
  0 <= now < 2 ^ 32 ->
  0 <= rd (chLastRecv s) c < 2 ^ 32 ->
  marked c t h s = true ->
  let s' := saveReading now c t h s in
  (forwarded now c t h s = true
   <-> rd (chLastRecv s) c > now \/ now - rd (chLastRecv s) c > 1000)
  /\ (forwarded now c t h s = true ->
      trace s' = Sent (c + 1) t h :: Reading c t h :: trace s
      /\ rd (chLastRecv s') c = now
      /\ forall now2 t2 h2, now <= now2 < 2 ^ 32 -> marked c t2 h2 s' = true ->
           (forwarded now2 c t2 h2 s' = true <-> now2 - now > 1000))
  /\ (forwarded now c t h s = false ->
      trace s' = Reading c t h :: trace s /\ chLastRecv s' = chLastRecv s).
Proof.
  intros Hc Hl Hnow Hlast Hm s'.
  assert (Hdue : forall n x, 0 <= n < 2 ^ 32 -> 0 <= x < 2 ^ 32 ->
            ((x >? n) || (to_ulong (n - x) >? 1000) = true <-> x > n \/ n - x > 1000)).
  { intros n x Hn Hx. destruct (Z_le_gt_dec x n) as [Hle | Hgt].
    - rewrite to_ulong_small by lia. lia.
    - assert (Hx' : (x >? n) = true) by lia. rewrite Hx'. simpl. split; [lia | done]. }
  destruct (saveReading_effect now c t h s Hc) as (_ & _ & El & Etr).
  fold s' in El, Etr. split; [| split].
  - unfold forwarded, due. rewrite Hm. simpl. by apply Hdue.
  - intros Hf. rewrite Hf in El, Etr. simpl in Etr.
    assert (Hr : rd (chLastRecv s') c = now) by (rewrite El; apply rd_wr_eq; lia).
    split; [done | split; [done |]].
    intros now2 t2 h2 Hn2 Hm2. unfold forwarded, due. rewrite Hm2, Hr. simpl.
    rewrite Hdue by lia. lia.
  - intros Hf. rewrite Hf in El, Etr. done.
Qed.

Lemma rate_limit_witness :
  let s' := saveReading 5000 0 1099 11 power_on in
  (forwarded 5000 0 1099 11 power_on = true
   <-> rd (chLastRecv power_on) 0 > 5000 \/ 5000 - rd (chLastRecv power_on) 0 > 1000)
  /\ (forwarded 5000 0 1099 11 power_on = true ->
      trace s' = Sent (0 + 1) 1099 11 :: Reading 0 1099 11 :: trace power_on
      /\ rd (chLastRecv s') 0 = 5000
      /\ forall now2 t2 h2, 5000 <= now2 < 2 ^ 32 -> marked 0 t2 h2 s' = true ->
           (forwarded now2 0 t2 h2 s' = true <-> now2 - 5000 > 1000))
  /\ (forwarded 5000 0 1099 11 power_on = false ->
      trace s' = Reading 0 1099 11 :: trace power_on
      /\ chLastRecv s' = chLastRecv power_on).
Proof.
  apply (rate_limit 5000 0 1099 11 power_on);
    [lia | reflexivity | lia | vm_compute; split; [discriminate | reflexivity]
     | reflexivity].
Defined.

(** C2, as stated, fails for a reading that is accepted but held back by
    the rate limit: channel 0 forwarded 1099 / 11 at 5000 ms; the reading
    1105 / 12 at 5500 ms is marked for send and not forwarded, and the
    stored temperature and humidity change all the same. *)
Lemma stored_fields_counterexample :
  marked 0 1105 12 sent_at_5000 = true
  /\ forwarded 5500 0 1105 12 sent_at_5000 = false
  /\ ~ (forwarded 5500 0 1105 12 sent_at_5000 = false ->
        rd (chTemp (saveReading 5500 0 1105 12 sent_at_5000)) 0 = rd (chTemp sent_at_5000) 0
        /\ rd (chHum (saveReading 5500 0 1105 12 sent_at_5000)) 0 = rd (chHum sent_at_5000) 0
        /\ rd (chLastRecv (saveReading 5500 0 1105 12 sent_at_5000)) 0
           = rd (chLastRecv sent_at_5000) 0).
Proof.
  split; [reflexivity |]. split; [reflexivity |].
  intros H. destruct (H eq_refl) as [Ht _].
  vm_compute in Ht. discriminate.
Qed.

(** C2, amended. For a reading on channel c: when it is accepted (marked
    for send) the stored raw temperature and raw humidity of the channel
    become those of the reading, whether or not it is then forwarded; the
    stored last-send timestamp becomes the current time exactly when the
    reading is forwarded, which is also exactly when the sink gets it; a
    rejected reading leaves the three tables as they were. *)
Theorem stored_fields_update (now c t h : Z) (s : State) :
  0 <= c <= 7 ->
  length (chTemp s) = 8%nat -> length (chHum s) = 8%nat ->
  length (chLastRecv s) = 8%nat ->
  let s' := saveReading now c t h s in
  (marked c t h s = true -> rd (chTemp s') c = t /\ rd (chHum s') c = h)
  /\ (marked c t h s = false ->
      chTemp s' = chTemp s /\ chHum s' = chHum s /\ chLastRecv s' = chLastRecv s
      /\ trace s' = Reading c t h :: trace s)
  /\ (forwarded now c t h s = true ->
      rd (chLastRecv s') c = now
      /\ trace s' = Sent (c + 1) t h :: Reading c t h :: trace s)
  /\ (forwarded now c t h s = false ->
      chLastRecv s' = chLastRecv s /\ trace s' = Reading c t h :: trace s).
Proof.
  intros Hc Ht Hh Hl s'.
  destruct (saveReading_effect now c t h s Hc) as (Et & Eh & El & Etr).
  fold s' in Et, Eh, El, Etr. unfold forwarded in *.
  split; [| split; [| split]].
  - intros Hm. rewrite Hm in Et, Eh. rewrite Et, Eh.
    split; apply rd_wr_eq; lia.
  - intros Hm. rewrite Hm in *. simpl in *. done.
  - intros Hf. rewrite Hf in *. simpl in *. split; [| done].
    rewrite El. apply rd_wr_eq. lia.
  - intros Hf. rewrite Hf in *. simpl in *. done.
Qed.

Lemma stored_fields_update_witness :
  let s' := saveReading 5500 0 1105 12 sent_at_5000 in
  (marked 0 1105 12 sent_at_5000 = true -> rd (chTemp s') 0 = 1105 /\ rd (chHum s') 0 = 12)
  /\ (marked 0 1105 12 sent_at_5000 = false ->
      chTemp s' = chTemp sent_at_5000 /\ chHum s' = chHum sent_at_5000
      /\ chLastRecv s' = chLastRecv sent_at_5000
      /\ trace s' = Reading 0 1105 12 :: trace sent_at_5000)
  /\ (forwarded 5500 0 1105 12 sent_at_5000 = true ->
      rd (chLastRecv s') 0 = 5500
      /\ trace s' = Sent (0 + 1) 1105 12 :: Reading 0 1105 12 :: trace sent_at_5000)
  /\ (forwarded 5500 0 1105 12 sent_at_5000 = false ->
      chLastRecv s' = chLastRecv sent_at_5000
      /\ trace s' = Reading 0 1105 12 :: trace sent_at_5000).
Proof.
  apply (stored_fields_update 5500 0 1105 12 sent_at_5000);
    [lia | reflexivity | reflexivity | reflexivity].
Defined.

(** ** [add] and the interpretation of a frame *)

Lemma bind_Some {A B : Type} (m : option A) (k : A -> option B) (b : B) :
  bind m k = Some b -> exists a, m = Some a /\ k a = Some b.
Proof. destruct m as [a |]; simpl; [eauto | discriminate]. Qed.

Lemma add_inv (now b : Z) (s s' : State) :
  add now b s = Some s' ->
  exists s1, shift_in b s = Some s1
    /\ ((nosBytes s1 = maxBytes /\ s' = interpret now s1)
        \/ (nosBytes s1 <> maxBytes /\ s' = s1)).
Proof.
  unfold add. intros H. apply bind_Some in H as (s1 & Hs1 & H).
  exists s1. split; [done |].
  destruct (nosBytes s1 =? maxBytes) eqn:E; inversion H; subst;
    [left | right]; (split; [lia | done]).
Qed.

Lemma shift_in_inv (b : Z) (s s1 : State) :
  shift_in b s = Some s1 ->
  trace s1 = trace s /\ chTemp s1 = chTemp s /\ chHum s1 = chHum s
  /\ chLastRecv s1 = chLastRecv s
  /\ (manchester s1 = manchester s
      \/ exists i v, 0 <= i < manchester_len /\ manchester s1 = wr (manchester s) i (to_byte v)).
Proof.
  unfold shift_in. destruct s; simpl.
  destruct (to_byte (nosBits0 + 1) =? 8); simpl.
  - unfold store. destruct ((0 <=? nosBytes0) && (nosBytes0 <? manchester_len)) eqn:E;
      simpl; [| discriminate].
    intros H; inversion H; subst; simpl. repeat split; try done.
    right. eexists _, _. split; [| reflexivity]. lia.
  - intros H; inversion H; subst; simpl. repeat split; try done. by left.
Qed.

Lemma interpret_effect (now : Z) (s : State) :
  let m := manchester s in
  let s' := interpret now s in
  manchester s' = m /\ nosBytes s' = nosBytes s
  /\ dataType s' = frame_dataType m /\ Newtemp s' = frame_Newtemp m
  /\ Newhum s' = frame_Newhum m
  /\ frames (trace s') = take 6 m :: frames (trace s)
  /\ (if (frame_dataType m =? 0x45) && (frame_Newhum m <=? 100)
      then readings (trace s')
           = (frame_stnId m, frame_Newtemp m, frame_Newhum m) :: readings (trace s)
      else trace s' = Frame (take 6 m) :: trace s
           /\ chTemp s' = chTemp s /\ chHum s' = chHum s /\ chLastRecv s' = chLastRecv s).
Proof.
  intros m s'. subst m s'. unfold interpret. destruct s; simpl.
  destruct ((frame_dataType manchester0 =? 69) && (frame_Newhum manchester0 <=? 100)) eqn:E;
    simpl; [| done].
  match goal with |- context [saveReading ?n ?c ?t ?h ?s] =>
    pose proof (saveReading_frame n c t h s) as (Em & Ed & Et & Eh & Ek & Ef);
    rewrite Em, Ed, Et, Eh, Ek, Ef; simpl;
    assert (Er : readings (trace (saveReading n c t h s)) = (c, t, h) :: readings (trace s))
  end.
  { unfold saveReading, validate, due, forward, accept, log; simpl.
    repeat (match goal with |- context [if ?b then _ else _] => destruct b eqn:? end;
            simpl; try done). }
  rewrite Er. done.
Qed.

Lemma wf_buffer_wr (m : list Z) (i v : Z) :
  wf_buffer m -> wf_buffer (wr m i (to_byte v)).
Proof.
  intros [Hl Hb]. split; [by rewrite length_wr |].
  unfold wr. apply Forall_insert; [done | apply to_byte_range].
Qed.

Lemma wf_buffer_rd (m : list Z) (i : Z) :
  wf_buffer m -> 0 <= i < 7 -> is_byte (rd m i).
Proof.
  intros [Hl Hb] Hi. unfold rd.
  eapply Forall_lookup_1; [exact Hb |].
  apply list_lookup_lookup_total_lt. lia.
Qed.

(** The bit fields of lines 275 and 281, on bytes. *)

Lemma stnId_bits (x : Z) :
  0 <= x -> Z.quot (Z.land x 0x70) 16 = Z.land (Z.shiftr x 4) 7.
Proof.
  intros Hx.
  rewrite Z.quot_div_nonneg; [| apply Z.land_nonneg; lia | lia].
  change 16 with (2 ^ 4). rewrite <- Z.shiftr_div_pow2 by lia.
  by rewrite Z.shiftr_land.
Qed.

Lemma Newtemp_bits (x y : Z) :
  0 <= y < 256 ->
  Z.land x 7 * 256 + y = Z.lor (Z.shiftl (Z.land x 7) 8) y.
Proof.
  intros Hy. rewrite Z.shiftl_mul_pow2 by lia. change (2 ^ 8) with 256.
  rewrite <- Z.add_lor_land.
  assert (Z.land (Z.land x 7 * 256) y = 0) as ->; [| lia].
  apply Z.bits_inj'. intros n Hn. rewrite Z.land_spec, Z.bits_0.
  destruct (Z_lt_le_dec n 8) as [Hlt | Hge].
  - change 256 with (2 ^ 8). rewrite Z.mul_pow2_bits_low by lia. done.
  - assert (Z.testbit y n = false) as ->; [| by rewrite andb_false_r].
    destruct (Z.eq_dec y 0) as [-> | Hne]; [apply Z.bits_0 |].
    apply Z.bits_above_log2; [lia |].
    assert (Z.log2 y < 8); [| lia].
    apply Z.log2_lt_pow2; lia.
Qed.

Lemma land_7_range (x : Z) : 0 <= Z.land x 7 <= 7.
Proof.
  split; [apply Z.land_nonneg; lia |].
  assert (H : 0 <= Z.land x 7 < 2 ^ 3); [| lia].
  change 7 with (Z.ones 3). rewrite Z.land_ones by lia.
  apply Z.mod_pos_bound. lia.
Qed.

Lemma add_complete (now b : Z) (s s' : State) :
  add now b s = Some s' -> nosBytes s' = maxBytes ->
  exists s1, shift_in b s = Some s1 /\ s' = interpret now s1.
Proof.
  intros H Hk. apply add_inv in H as (s1 & Hs1 & [[_ ->] | [Hne ->]]); [eauto | done].
Qed.



Lemma shift_in_wf (b : Z) (s s1 : State) :
  shift_in b s = Some s1 -> wf_buffer (manchester s) -> wf_buffer (manchester s1).
Proof.
  intros H Hwf. apply shift_in_inv in H as (_ & _ & _ & _ & [-> | (i & v & _ & ->)]);
    [done | by apply wf_buffer_wr].
Qed.

(** C6. When [add] has a full frame: the channel is the field in bits 4
    to 6 of byte 3, a number from 0 to 7; [Newtemp] is made of the low
    three bits of byte 3 above the eight bits of byte 4, a number below
    4096; [Newhum] is byte 5.  These are the values [saveReading] is
    called with when the frame passes the gate. *)
Theorem frame_fields (now b : Z) (s s' : State) :
  add now b s = Some s' -> nosBytes s' = maxBytes ->
  wf_buffer (manchester s) ->
  let m := manchester s' in
  (frame_stnId m = Z.land (Z.shiftr (rd m 3) 4) 7 /\ 0 <= frame_stnId m <= 7)
  /\ (Newtemp s' = Z.lor (Z.shiftl (Z.land (rd m 3) 7) 8) (rd m 4)
      /\ 0 <= Newtemp s' < 4096)
  /\ Newhum s' = rd m 5
  /\ (rd m 1 = 0x45 /\ rd m 5 <= 100 ->
      head (readings (trace s')) = Some (frame_stnId m, Newtemp s', Newhum s')).
Proof.
  intros H Hk Hwf m.
  destruct (add_complete _ _ _ _ H Hk) as (s1 & Hs1 & ->).
  apply shift_in_wf in Hs1; [| done].
  destruct (interpret_effect now s1) as (Em & _ & _ & Et & Eh & _ & Hgate).
  unfold frame_dataType at 1 in Hgate. unfold frame_Newhum at 1 in Hgate.
  assert (Hm : m = manchester s1) by (subst m; done).
  rewrite Et, Eh, <- Hm. rewrite <- Hm in Hs1.
  pose proof (wf_buffer_rd m 3 Hs1 ltac:(lia)) as H3.
  pose proof (wf_buffer_rd m 4 Hs1 ltac:(lia)) as H4.
  unfold is_byte in H3, H4.
  assert (Hc : frame_stnId m = Z.land (Z.shiftr (rd m 3) 4) 7)
    by (apply stnId_bits; lia).
  pose proof (land_7_range (Z.shiftr (rd m 3) 4)) as Hr.
  pose proof (land_7_range (rd m 3)) as Hr'.
  split; [split; [done | lia] |].
  split; [split; [apply Newtemp_bits; lia | unfold frame_Newtemp; lia] |].
  split; [done |].
  intros Hg.
  assert (E : (rd m 1 =? 69) && (rd m 5 <=? 100) = true) by lia.
  rewrite Hm in E. rewrite E in Hgate. by rewrite Hgate, <- Hm.
Qed.

Lemma frame_fields_witness :
  wf_buffer (manchester last_bit_due)
  /\ frame_stnId (manchester sample_done) = 0
  /\ Newtemp sample_done = 1099
  /\ Newhum sample_done = 11.
Proof.
  assert (Hwf : wf_buffer (manchester last_bit_due)).
  { split; [reflexivity |]. unfold last_bit_due. fields.
    repeat (constructor; [unfold is_byte; lia |]). constructor. }
  split; [exact Hwf |].
  assert (Ha : add 5000 1 last_bit_due = Some sample_done) by (vm_compute; reflexivity).
  assert (Hk : nosBytes sample_done = maxBytes) by (vm_compute; reflexivity).
  destruct (frame_fields 5000 1 last_bit_due sample_done Ha Hk Hwf)
    as ([Hc _] & [Ht _] & Hh & _).
  split; [rewrite Hc; vm_compute; reflexivity |].
  split; [rewrite Ht; vm_compute; reflexivity | rewrite Hh; vm_compute; reflexivity].
Defined.

(** ** The assembler, bit by bit *)

Ltac phase_intro H :=
  destruct H as [Hrx Htb Hfz Hhh Hd Hnb Hk Hm Htr].

Lemma dispatch_arrive_one (now : Z) (s : State) :
  dispatch now (arrive true s)
  = if negb (firstZero s)
    then Some (next_bit (set_headerHits (to_byte (headerHits s + 1)) (arrive true s)))
    else do s' <- add now 1 (arrive true s); Some (next_bit s').
Proof. reflexivity. Qed.

Lemma dispatch_arrive_zero (now : Z) (s : State) :
  dispatch now (arrive false s)
  = if headerHits s <? headerBits
    then Some (set_rxstate 0 (arrive false s))
    else do s' <- add now 0 (set_firstZero true (arrive false s)); Some (next_bit s').
Proof. reflexivity. Qed.

Lemma step_reset_one (now : Z) (s : State) :
  rxstate s = 0 ->
  exists s', loop (clean s true now) s = Some s'
    /\ phase s s' false 1 (dataByte s) 6 0 (manchester s).
Proof.
  intros Hrx. rewrite loop_clean_reset, dispatch_arrive_one by done. fields.
  eexists; split; [reflexivity |].
  constructor; fields; try done. by left.
Qed.

Lemma step_reset_zero (now : Z) (s : State) :
  rxstate s = 0 ->
  exists s', loop (clean s false now) s = Some s'
    /\ rxstate s' = 0 /\ trace s' = trace s /\ manchester s' = manchester s
    /\ dataByte s' = dataByte s.
Proof.
  intros Hrx. rewrite loop_clean_reset, dispatch_arrive_zero by done. fields.
  change (0 <? headerBits) with true. cbv iota.
  eexists; split; [reflexivity |]. fields. done.
Qed.

Lemma step_header (now : Z) (s0 s : State) (hh d nb k : Z) (m : list Z) :
  phase s0 s false hh d nb k m ->
  exists s', loop (clean s true now) s = Some s'
    /\ phase s0 s' false (to_byte (hh + 1)) d nb k m.
Proof.
  intros H. phase_intro H.
  rewrite loop_clean_wait, dispatch_arrive_one by done. rewrite Hfz. fields.
  eexists; split; [reflexivity |].
  constructor; fields; try done; [by left | by rewrite Hhh].
Qed.

Lemma step_premature_zero (now : Z) (s0 s : State) (fz : bool) (hh d nb k : Z) (m : list Z) :
  phase s0 s fz hh d nb k m -> hh < headerBits ->
  exists s', loop (clean s false now) s = Some s'
    /\ rxstate s' = 0 /\ trace s' = trace s0 /\ manchester s' = m /\ dataByte s' = d.
Proof.
  intros H Hlt. phase_intro H.
  rewrite loop_clean_wait, dispatch_arrive_zero by done.
  assert (E : (headerHits s <? headerBits) = true) by lia. rewrite E.
  eexists; split; [reflexivity |]. fields. done.
Qed.

(** What [add] does to a state between bits, by cases on the counters. *)

Lemma add_shift (now : Z) (b : bool) (s : State) :
  0 <= nosBits s < 7 -> nosBytes s <> maxBytes ->
  add now (level b) s
  = Some (set_nosBits (nosBits s + 1) (set_dataByte (shl (dataByte s) b) s)).
Proof.
  intros Hnb Hk. unfold add, shift_in. fields.
  rewrite (to_byte_small (nosBits s + 1)) by lia.
  assert (E2 : (nosBits s + 1 =? 8) = false) by lia. rewrite E2. fields.
  assert (E3 : (nosBytes s =? maxBytes) = false) by lia. by rewrite E3.
Qed.

Lemma add_store (now : Z) (b : bool) (s : State) :
  nosBits s = 7 -> 0 <= nosBytes s < 5 ->
  add now (level b) s
  = Some (set_nosBytes (nosBytes s + 1)
           (set_manchester (wr (manchester s) (nosBytes s) (shl (dataByte s) b))
             (set_nosBits 0 (set_nosBits 8 (set_dataByte (shl (dataByte s) b) s))))).
Proof.
  intros Hnb Hk. unfold add, shift_in, store. fields. rewrite Hnb.
  change (to_byte (7 + 1) =? 8) with true. fields.
  assert (E1 : (0 <=? nosBytes s) && (nosBytes s <? manchester_len) = true)
    by (unfold manchester_len; lia).
  rewrite E1. fields.
  rewrite (to_byte_small (nosBytes s + 1)) by lia.
  assert (E3 : (nosBytes s + 1 =? maxBytes) = false) by (unfold maxBytes; lia).
  by rewrite E3.
Qed.

Lemma add_last (now : Z) (b : bool) (s : State) :
  nosBits s = 7 -> nosBytes s = 5 ->
  add now (level b) s
  = Some (interpret now (set_nosBytes 6
           (set_manchester (wr (manchester s) 5 (shl (dataByte s) b))
             (set_nosBits 0 (set_nosBits 8 (set_dataByte (shl (dataByte s) b) s)))))).
Proof.
  intros Hnb Hk. unfold add, shift_in, store. fields. rewrite Hnb, Hk.
  reflexivity.
Qed.

(** In the payload, and at the zero that ends a long enough header, the
    bit goes to [add]. *)
Lemma loop_payload (now : Z) (b : bool) (s : State) :
  rxstate s = 1 -> bit_ok s ->
  headerBits <= headerHits s -> firstZero s = true \/ b = false ->
  loop (clean s b now) s
  = do s' <- add now (level b) (set_firstZero true (arrive b s)); Some (next_bit s').
Proof.
  intros Hrx Htb Hhh Hfz. rewrite loop_clean_wait by done. destruct b.
  - destruct Hfz as [Hfz | ?]; [| done].
    rewrite dispatch_arrive_one, Hfz. cbn [negb].
    replace (set_firstZero true (arrive true s)) with (arrive true s); [done |].
    destruct s; cbn in Hfz; subst; reflexivity.
  - rewrite dispatch_arrive_zero.
    assert (E : (headerHits s <? headerBits) = false) by lia. by rewrite E.
Qed.

Section Payload.
Variables (now : Z) (b : bool) (s0 s : State) (fz : bool) (hh d nb k : Z) (m : list Z).
Hypothesis Hph : phase s0 s fz hh d nb k m.
Hypothesis Hhh : headerBits <= hh.
Hypothesis Hfz : fz = true \/ b = false.

Lemma payload_goes_to_add :
  loop (clean s b now) s
  = do s' <- add now (level b) (set_firstZero true (arrive b s)); Some (next_bit s').
Proof.
  destruct Hph as [Hrx Htb Hfz' Hhh' _ _ _ _ _].
  apply loop_payload; try done; [lia | by rewrite Hfz'].
Qed.

Lemma step_shift :
  0 <= nb < 7 -> k <> maxBytes ->
  exists s', loop (clean s b now) s = Some s'
    /\ phase s0 s' true hh (shl d b) (nb + 1) k m.
Proof.
  intros Hnb' Hk'. rewrite payload_goes_to_add.
  destruct Hph as [Hrx Htb Hfz' Hhh' Hd Hnb Hk Hm Htr].
  rewrite add_shift by (fields; lia). fields.
  eexists; split; [reflexivity |].
  constructor; fields; try congruence.
  destruct b; [by left | by right].
Qed.

Lemma step_store :
  nb = 7 -> 0 <= k < 5 ->
  exists s', loop (clean s b now) s = Some s'
    /\ phase s0 s' true hh (shl d b) 0 (k + 1) (wr m k (shl d b)).
Proof.
  intros Hnb' Hk'. rewrite payload_goes_to_add.
  destruct Hph as [Hrx Htb Hfz' Hhh' Hd Hnb Hk Hm Htr].
  rewrite add_store by (fields; lia). fields.
  eexists; split; [reflexivity |].
  constructor; fields; try congruence.
  destruct b; [by left | by right].
Qed.

Lemma step_last :
  nb = 7 -> k = 5 ->
  exists s', loop (clean s b now) s = Some s'
    /\ rxstate s' = 1
    /\ nosBytes s' = 6
    /\ manchester s' = wr m 5 (shl d b)
    /\ frames (trace s') = take 6 (wr m 5 (shl d b)) :: frames (trace s0).
Proof.
  intros Hnb' Hk'. rewrite payload_goes_to_add.
  destruct Hph as [Hrx Htb Hfz' Hhh' Hd Hnb Hk Hm Htr].
  rewrite add_last by (fields; lia).
  match goal with |- context [interpret now ?x] =>
    destruct (interpret_effect now x) as (Em & Ek & _ & _ & _ & Ef & _);
    remember (interpret now x) as s2 eqn:Es2; clear Es2 end.
  cbn [manchester nosBytes trace dataByte set_nosBytes set_manchester set_nosBits
       set_dataByte set_firstZero arrive set_tempBit set_rxstate set_Dstop] in Em, Ek, Ef.
  cbn [bind]. eexists; split; [reflexivity |].
  unfold next_bit.
  cbn [rxstate nosBytes manchester trace set_isrcalled set_rxstate].
  rewrite Em, Ek, Ef, Hd, Hm, Htr. done.
Qed.
End Payload.

(** ** Runs of bits *)

Lemma feed_app (now : Z) (l1 l2 : list bool) (s : State) :
  feed now (l1 ++ l2) s = do s' <- feed now l1 s; feed now l2 s'.
Proof.
  revert s. induction l1 as [| b l1 IH]; intros s; [done |].
  simpl. destruct (loop (clean s b now) s) as [s1 |]; simpl; [apply IH | done].
Qed.

Lemma feed_cons_Some (now : Z) (b : bool) (bits : list bool) (s s1 : State) :
  loop (clean s b now) s = Some s1 -> feed now (b :: bits) s = feed now bits s1.
Proof. intros H. simpl. by rewrite H. Qed.

Lemma header_more (now : Z) (n : nat) :
  forall (s0 s : State) (hh d nb k : Z) (m : list Z),
    phase s0 s false hh d nb k m -> 0 <= hh < 256 ->
    exists s', feed now (replicate n true) s = Some s'
      /\ phase s0 s' false ((hh + Z.of_nat n) mod 256) d nb k m.
Proof.
  induction n as [| n IH]; intros s0 s hh d nb k m Hph Hhh.
  - exists s. split; [done |]. rewrite Z.add_0_r, Z.mod_small by done. done.
  - destruct (step_header now s0 s hh d nb k m Hph) as (s1 & Hs1 & Hph1).
    destruct (IH s0 s1 _ d nb k m Hph1 (to_byte_range _)) as (s' & Hs' & Hph').
    exists s'. split.
    + cbn [replicate]. by rewrite (feed_cons_Some _ _ _ _ _ Hs1).
    + unfold to_byte in Hph'. rewrite Zplus_mod_idemp_l in Hph'.
      replace (hh + Z.of_nat (S n)) with (hh + 1 + Z.of_nat n) by lia. done.
Qed.

Lemma header_run (now : Z) (n : nat) (s : State) :
  rxstate s = 0 -> (0 < n)%nat ->
  exists s', feed now (replicate n true) s = Some s'
    /\ phase s s' false (Z.of_nat n mod 256) (dataByte s) 6 0 (manchester s).
Proof.
  intros Hrx Hn. destruct n as [| n]; [lia |].
  destruct (step_reset_one now s Hrx) as (s1 & Hs1 & Hph1).
  destruct (header_more now n s s1 1 _ _ _ _ Hph1 ltac:(lia)) as (s' & Hs' & Hph').
  exists s'. split.
  - cbn [replicate]. by rewrite (feed_cons_Some _ _ _ _ _ Hs1).
  - replace (Z.of_nat (S n)) with (1 + Z.of_nat n) by lia. done.
Qed.

Lemma bits_run (now : Z) (bs : list bool) :
  forall (s0 s : State) (hh d nb k : Z) (m : list Z),
    phase s0 s true hh d nb k m -> headerBits <= hh -> k <> maxBytes ->
    0 <= nb -> nb + Z.of_nat (length bs) <= 7 ->
    exists s', feed now bs s = Some s'
      /\ phase s0 s' true hh (fold_left shl bs d) (nb + Z.of_nat (length bs)) k m.
Proof.
  induction bs as [| b bs IH]; intros s0 s hh d nb k m Hph Hhh Hk Hnb Hlen.
  - exists s. split; [done |]. cbn [length fold_left]. rewrite Z.add_0_r. done.
  - cbn [length] in Hlen.
    destruct (step_shift now b s0 s true hh d nb k m Hph Hhh (or_introl eq_refl))
      as (s1 & Hs1 & Hph1); [lia | done |].
    destruct (IH s0 s1 hh _ _ k m Hph1 Hhh Hk) as (s' & Hs' & Hph'); [lia | lia |].
    exists s'. split.
    + by rewrite (feed_cons_Some _ _ _ _ _ Hs1).
    + cbn [length fold_left].
      replace (nb + Z.of_nat (S (length bs))) with (nb + 1 + Z.of_nat (length bs)) by lia.
      done.
Qed.

(** ** The value of a byte *)

Lemma shl_arith (d : Z) (b : bool) : shl d b = (2 * d + Z.b2z b) mod 256.
Proof.
  unfold shl, to_byte, level. f_equal.
  rewrite Z.shiftl_mul_pow2 by lia. change (2 ^ 1) with 2.
  pose proof (Z.add_lor_land (d * 2) (Z.b2z b)) as Hsum.
  assert (Hland : Z.land (d * 2) (Z.b2z b) = 0); [| lia].
  destruct b; simpl Z.b2z; [| apply Z.land_0_r].
  change 1 with (Z.ones 1). rewrite Z.land_ones by lia.
  change (2 ^ 1) with 2. apply Z.mod_mul. lia.
Qed.

Lemma packfrom_split (bs : list bool) (a : Z) :
  packfrom a bs = a * 2 ^ Z.of_nat (length bs) + packfrom 0 bs.
Proof.
  unfold packfrom. revert a. induction bs as [| b bs IH]; intros a.
  - simpl. lia.
  - cbn [fold_left length]. rewrite IH, (IH (2 * 0 + Z.b2z b)).
    rewrite Nat2Z.inj_succ, Z.pow_succ_r by lia. lia.
Qed.

Lemma pack_range (bs : list bool) : 0 <= pack bs < 2 ^ Z.of_nat (length bs).
Proof.
  unfold pack. induction bs as [| b bs IH] using rev_ind; [simpl; lia |].
  rewrite fold_left_app, length_app, Nat2Z.inj_add, Z.pow_add_r by lia.
  cbn [fold_left length]. change (2 ^ Z.of_nat 1) with 2.
  destruct b; simpl Z.b2z; lia.
Qed.

Lemma fold_shl (bs : list bool) (d : Z) :
  to_byte (fold_left shl bs d) = to_byte (packfrom d bs).
Proof.
  revert d. induction bs as [| b bs IH]; intros d; [done |].
  cbn [fold_left]. rewrite IH. unfold packfrom at 2. cbn [fold_left].
  fold (packfrom (2 * d + Z.b2z b) bs).
  rewrite shl_arith, (packfrom_split bs (_ mod 256)), (packfrom_split bs (2 * d + _)).
  unfold to_byte. rewrite <- Zplus_mod_idemp_l, Zmult_mod_idemp_l, Zplus_mod_idemp_l.
  done.
Qed.

Lemma fold_shl_byte (bs : list bool) (d : Z) :
  length bs = 8%nat -> fold_left shl bs d = pack bs.
Proof.
  intros Hl.
  assert (Hb : fold_left shl bs d = to_byte (fold_left shl bs d)).
  { destruct bs as [| b bs] using rev_ind; [done |].
    rewrite fold_left_app. cbn [fold_left]. unfold shl at 1 3.
    unfold to_byte. by rewrite Z.mod_mod. }
  rewrite Hb, fold_shl, packfrom_split, Hl. unfold to_byte.
  change (2 ^ Z.of_nat 8) with 256. rewrite Z.add_comm, Z.mod_add by lia.
  pose proof (pack_range bs) as Hr. rewrite Hl in Hr.
  apply Z.mod_small. exact Hr.
Qed.

Lemma pack_bits_of_byte (v : Z) : is_byte v -> pack (bits_of_byte v) = v.
Proof.
  intros Hv.
  assert (H : forallb (fun v => pack (bits_of_byte v) =? v)
                (map Z.of_nat (seq 0 256)) = true) by (vm_compute; reflexivity).
  rewrite forallb_forall in H. apply Z.eqb_eq, H, in_map_iff.
  exists (Z.to_nat v). unfold is_byte in Hv. split; [lia |]. apply in_seq. lia.
Qed.

Lemma length_bits_of_byte (v : Z) : length (bits_of_byte v) = 8%nat.
Proof. reflexivity. Qed.

(** ** Bytes and frames *)

Lemma split_last_bit (bs : list bool) :
  length bs = 8%nat -> exists bs7 b8, bs = bs7 ++ [b8] /\ length bs7 = 7%nat.
Proof.
  intros Hl. destruct bs as [| b bs] using rev_ind; [done |].
  rewrite length_app in Hl. cbn [length] in Hl. exists bs, b. split; [done | lia].
Qed.

Lemma byte_run (now : Z) (bs : list bool) (s0 s : State) (hh d k : Z) (m : list Z) :
  phase s0 s true hh d 0 k m -> headerBits <= hh -> 0 <= k < 5 ->
  length bs = 8%nat ->
  exists s', feed now bs s = Some s'
    /\ phase s0 s' true hh (pack bs) 0 (k + 1) (wr m k (pack bs)).
Proof.
  intros Hph Hhh Hk Hl.
  rewrite <- (fold_shl_byte bs d Hl).
  destruct (split_last_bit bs Hl) as (bs7 & b8 & -> & Hl7).
  destruct (bits_run now bs7 s0 s hh d 0 k m Hph Hhh) as (s1 & Hs1 & Hph1);
    [unfold maxBytes; lia | lia | lia |].
  destruct (step_store now b8 s0 s1 true hh _ _ k m Hph1 Hhh (or_introl eq_refl))
    as (s' & Hs' & Hph'); [lia | lia |].
  exists s'. split.
  - rewrite feed_app, Hs1. cbn [bind]. by rewrite (feed_cons_Some _ _ _ _ _ Hs').
  - rewrite fold_left_app. done.
Qed.

Lemma last_byte_run (now : Z) (bs : list bool) (s0 s : State) (hh d : Z) (m : list Z) :
  phase s0 s true hh d 0 5 m -> headerBits <= hh ->
  length bs = 8%nat ->
  exists s', feed now bs s = Some s'
    /\ rxstate s' = 1 /\ nosBytes s' = 6
    /\ manchester s' = wr m 5 (pack bs)
    /\ frames (trace s') = take 6 (wr m 5 (pack bs)) :: frames (trace s0).
Proof.
  intros Hph Hhh Hl.
  rewrite <- (fold_shl_byte bs d Hl).
  destruct (split_last_bit bs Hl) as (bs7 & b8 & -> & Hl7).
  destruct (bits_run now bs7 s0 s hh d 0 5 m Hph Hhh) as (s1 & Hs1 & Hph1);
    [unfold maxBytes; lia | lia | lia |].
  destruct (step_last now b8 s0 s1 true hh _ _ 5 m Hph1 Hhh (or_introl eq_refl))
    as (s' & Hs' & Hfin); [lia | lia |].
  exists s'. split.
  - rewrite feed_app, Hs1. cbn [bind]. by rewrite (feed_cons_Some _ _ _ _ _ Hs').
  - rewrite fold_left_app. done.
Qed.

(** From a reset (case 0): a header of [n] ones, the zero, one more bit and
    five bytes give one frame, completed by the last bit. *)
Lemma decode_after_reset (now : Z) (s : State) (n : nat) (p : bool) (payload : list Z) :
  rxstate s = 0 -> length (manchester s) = 7%nat ->
  headerBits <= Z.of_nat n mod 256 ->
  length payload = 5%nat -> Forall is_byte payload ->
  exists s',
    feed now (replicate n true ++ false :: p :: concat (map bits_of_byte payload)) s
    = Some s'
    /\ rxstate s' = 1 /\ nosBytes s' = 6
    /\ take 6 (manchester s') = to_byte (4 * dataByte s + level p) :: payload
    /\ frames (trace s') = take 6 (manchester s') :: frames (trace s).
Proof.
  intros Hrx Hlen Hn Hl5 Hbytes.
  destruct payload as [| v1 [| v2 [| v3 [| v4 [| v5 [| ? ?]]]]]]; try done.
  repeat match goal with H : Forall _ (_ :: _) |- _ => inversion H; subst; clear H end.
  assert (Hn0 : (0 < n)%nat).
  { destruct n; [| lia]. unfold headerBits in Hn.
    change (Z.of_nat 0 mod 256) with 0 in Hn. lia. }
  destruct (header_run now n s Hrx Hn0) as (s1 & Hs1 & Hph1).
  destruct (step_shift now false s s1 false _ _ 6 0 _ Hph1 Hn (or_intror eq_refl))
    as (s2 & Hs2 & Hph2); [lia | done |].
  destruct (step_store now p s s2 true _ _ _ 0 _ Hph2 Hn (or_introl eq_refl))
    as (s3 & Hs3 & Hph3); [lia | lia |].
  destruct (byte_run now (bits_of_byte v1) s s3 _ _ _ _ Hph3 Hn) as (s4 & Hs4 & Hph4);
    [lia | done |].
  destruct (byte_run now (bits_of_byte v2) s s4 _ _ _ _ Hph4 Hn) as (s5 & Hs5 & Hph5);
    [lia | done |].
  destruct (byte_run now (bits_of_byte v3) s s5 _ _ _ _ Hph5 Hn) as (s6 & Hs6 & Hph6);
    [lia | done |].
  destruct (byte_run now (bits_of_byte v4) s s6 _ _ _ _ Hph6 Hn) as (s7 & Hs7 & Hph7);
    [lia | done |].
  destruct (last_byte_run now (bits_of_byte v5) s s7 _ _ _ Hph7 Hn) as (s8 & Hs8 & Hfin);
    [done |].
  destruct Hfin as (Hrx8 & Hk8 & Hm8 & Hf8).
  exists s8. split; [| split; [done | split; [done |]]].
  - rewrite feed_app, Hs1. cbn [bind].
    rewrite (feed_cons_Some _ _ _ _ _ Hs2), (feed_cons_Some _ _ _ _ _ Hs3).
    cbn [map concat]. rewrite app_nil_r.
    rewrite feed_app, Hs4. cbn [bind]. rewrite feed_app, Hs5. cbn [bind].
    rewrite feed_app, Hs6. cbn [bind]. rewrite feed_app, Hs7. cbn [bind]. done.
  - rewrite Hf8, Hm8. rewrite !pack_bits_of_byte by done.
    assert (E0 : shl (shl (dataByte s) false) p = to_byte (4 * dataByte s + level p)).
    { rewrite !shl_arith. unfold to_byte, level. simpl (Z.b2z false).
      rewrite Z.add_0_r, <- Zplus_mod_idemp_l, Zmult_mod_idemp_r, Zplus_mod_idemp_l.
      f_equal. lia. }
    rewrite E0.
    destruct (manchester s) as [| m0 [| m1 [| m2 [| m3 [| m4 [| m5 [| m6 [| ? ?]]]]]]]];
      try done.
Qed.

(** ** Claims on the assembler *)

(** C1, as stated, fails.  Ten ones, the zero and the 48 bits of six
    bytes are fed from power-on.  The frame is already complete seven bits
    before the end, and its bytes are not the six bytes fed: the zero and
    the bit after it are the low bits of byte 0, the bytes fed are shifted
    by two bits against the bytes stored.  At the end of the input the
    history is not the one frame of the six bytes fed. *)
Lemma frame_counterexample :
  let bits := concat (map bits_of_byte sample_bytes) in
  (exists s1, feed 5000 (header10 ++ take 41 bits) power_on = Some s1
     /\ frames (trace s1) = [[0; 138; 158; 8; 150; 22]])
  /\ ~ (exists s', feed 5000 (header10 ++ bits) power_on = Some s'
          /\ frames (trace s') = [sample_bytes]).
Proof.
  split.
  - eexists. split; vm_compute; reflexivity.
  - intros (s' & Hs' & Hf). vm_compute in Hs'. inversion Hs'; subst; clear Hs'.
    vm_compute in Hf. discriminate.
Qed.

(** C1, amended.  From a reset, a header of [n] ones with [n mod 256] at
    least 10 (the header counter is a byte), the zero, one more bit [p]
    and the 40 bits of five bytes, most significant bit first, complete
    exactly one frame, on the last bit.  Bytes 1 to 5 of the frame are the
    five bytes fed; byte 0 is what was in [dataByte] shifted left by two,
    with the zero and [p] as its low bits. *)
Theorem frame_assembled (now : Z) (s : State) (n : nat) (p : bool) (payload : list Z) :
  rxstate s = 0 -> length (manchester s) = 7%nat ->
  headerBits <= Z.of_nat n mod 256 ->
  length payload = 5%nat -> Forall is_byte payload ->
  exists s',
    feed now (replicate n true ++ false :: p :: concat (map bits_of_byte payload)) s
    = Some s'
    /\ take 6 (manchester s') = to_byte (4 * dataByte s + level p) :: payload
    /\ frames (trace s') = take 6 (manchester s') :: frames (trace s).
Proof.
  intros Hrx Hlen Hn Hl Hb.
  destruct (decode_after_reset now s n p payload Hrx Hlen Hn Hl Hb)
    as (s' & Hs' & _ & _ & Hm & Hf).
  by exists s'.
Qed.

Lemma frame_assembled_witness :
  exists s',
    feed 5000 (replicate 10 true ++ false :: true
               :: concat (map bits_of_byte [0x45; 0x4F; 0x04; 0x4B; 0x0B])) power_on
    = Some s'
    /\ take 6 (manchester s')
       = to_byte (4 * dataByte power_on + level true) :: [0x45; 0x4F; 0x04; 0x4B; 0x0B]
    /\ frames (trace s') = take 6 (manchester s') :: frames (trace power_on).
Proof.
  apply (frame_assembled 5000 power_on 10 true [0x45; 0x4F; 0x04; 0x4B; 0x0B]);
    [reflexivity | reflexivity | vm_compute; discriminate | reflexivity |].
  repeat (constructor; [unfold is_byte; lia |]). constructor.
Defined.

(** C4.  When a zero is resolved while fewer than ten header ones are
    counted (or as the very first bit after a reset), [loop] puts the
    receiver in case 0 and does nothing else: no frame, no output, the
    buffer untouched.  The next call of [loop] then starts with the
    assignments of case 0 ([tempBit] to the polarity, [firstZero] to
    false, [headerHits] to 0, [nosBits] to 6, [nosBytes] to 0), and a
    header, zero and payload fed from there are assembled into one frame
    as from any reset. *)
Theorem premature_zero (now now' : Z) (s : State) (n : nat) (p : bool) (payload : list Z) :
  rxstate s = 0 \/ (rxstate s = 1 /\ bit_ok s /\ headerHits s < headerBits) ->
  length (manchester s) = 7%nat ->
  headerBits <= Z.of_nat n mod 256 ->
  length payload = 5%nat -> Forall is_byte payload ->
  exists s1,
    loop (clean s false now) s = Some s1
    /\ rxstate s1 = 0 /\ trace s1 = trace s /\ manchester s1 = manchester s
    /\ (forall e, loop e s1 = case1 e (reset s1))
    /\ (tempBit (reset s1) = polarity /\ firstZero (reset s1) = false
        /\ headerHits (reset s1) = 0 /\ nosBits (reset s1) = 6 /\ nosBytes (reset s1) = 0)
    /\ exists s',
         feed now' (replicate n true ++ false :: p :: concat (map bits_of_byte payload)) s1
         = Some s'
         /\ take 6 (manchester s') = to_byte (4 * dataByte s + level p) :: payload
         /\ frames (trace s') = take 6 (manchester s') :: frames (trace s).
Proof.
  intros Hs Hlen Hn Hl Hb.
  assert (H1 : exists s1, loop (clean s false now) s = Some s1
             /\ rxstate s1 = 0 /\ trace s1 = trace s /\ manchester s1 = manchester s
             /\ dataByte s1 = dataByte s).
  { destruct Hs as [Hrx | (Hrx & Htb & Hhh)].
    - by apply step_reset_zero.
    - apply (step_premature_zero now s s (firstZero s) (headerHits s) (dataByte s)
               (nosBits s) (nosBytes s) (manchester s)); [by constructor | done]. }
  destruct H1 as (s1 & Hs1 & Hrx1 & Htr1 & Hm1 & Hd1).
  exists s1. split; [done |]. split; [done |]. split; [done |]. split; [done |].
  split.
  { intros e. unfold loop. rewrite Hrx1. unfold case0.
    f_equal. destruct s1; cbn in Hrx1; subst; reflexivity. }
  split; [done |].
  destruct (decode_after_reset now' s1 n p payload Hrx1) as (s' & Hs' & _ & _ & Hm & Hf);
    try done; [congruence |].
  exists s'. rewrite <- Hd1, <- Htr1. done.
Qed.

Lemma premature_zero_witness :
  (rxstate three_ones = 1 /\ bit_ok three_ones /\ headerHits three_ones < headerBits)
  /\ exists s1,
       loop (clean three_ones false 0) three_ones = Some s1
       /\ rxstate s1 = 0 /\ trace s1 = trace three_ones.
Proof.
  assert (H : rxstate three_ones = 1 /\ bit_ok three_ones
              /\ headerHits three_ones < headerBits).
  { split; [vm_compute; reflexivity |]. split; [left; vm_compute; reflexivity |].
    vm_compute. reflexivity. }
  split; [exact H |].
  destruct (premature_zero 0 5000 three_ones 10 true [0x45; 0x4F; 0x04; 0x4B; 0x0B])
    as (s1 & Hs1 & Hrx1 & Htr1 & _).
  - right. exact H.
  - vm_compute. reflexivity.
  - vm_compute. discriminate.
  - reflexivity.
  - repeat (constructor; [unfold is_byte; lia |]). constructor.
  - exists s1. split; [exact Hs1 |]. split; [exact Hrx1 | exact Htr1].
Defined.

(** A header of 260 ones: the byte counter has wrapped to 4 when the zero
    comes, the zero is taken for a corrupted header, and the bits that
    follow complete no frame. *)
Example long_header_wraps :
  exists s', feed 5000 (replicate 260 true ++ false :: true
                        :: concat (map bits_of_byte [0x45; 0x4F; 0x04; 0x4B; 0x0B]))
               power_on = Some s'
    /\ frames (trace s') = [].
Proof. eexists. split; vm_compute; reflexivity. Qed.

(** C10 fails on the code.  [add] sets [rxstate] to 0 on a full frame, but
    the end of case 4 sets it to 1 right after, so case 0 is not run and
    [nosBytes] stays at 6.  From power-on, with ten ones, the zero and ones
    after it: after 42 bits the frame is complete and the receiver waits in
    case 1 with [nosBytes = 6]; 8 bits later a byte is stored at index 6
    and [nosBytes] is 7; 8 bits later the store goes to index 7, past the
    end of the seven bytes. *)
Theorem buffer_overrun :
  (exists s1, feed 5000 (header10 ++ replicate 41 true) power_on = Some s1
     /\ rxstate s1 = 1 /\ nosBytes s1 = 6 /\ nosBits s1 = 0)
  /\ (exists s2, feed 5000 (header10 ++ replicate 49 true) power_on = Some s2
        /\ nosBytes s2 = 7 /\ rd (manchester s2) 6 = 255)
  /\ (exists s3, feed 5000 (header10 ++ replicate 56 true) power_on = Some s3
        /\ nosBytes s3 = 7 /\ nosBits s3 = 7
        /\ shift_in 1 (set_firstZero true (arrive true s3)) = None)
  /\ feed 5000 (header10 ++ replicate 57 true) power_on = None.
Proof.
  split; [eexists; split; [vm_compute; reflexivity |]; vm_compute; done |].
  split; [eexists; split; [vm_compute; reflexivity |]; vm_compute; done |].
  split; [eexists; split; [vm_compute; reflexivity |]; vm_compute; done |].
  vm_compute. reflexivity.
Qed.

(** * Further properties of the sketch *)

Ltac fields_in H :=
  cbn [rxstate tempBit firstZero headerHits dataByte nosBits nosBytes manchester
       dataType differencetemp differencehum Newtemp Newhum chTemp chHum chLastRecv
       isrcalled Dstop trace
       set_rxstate set_tempBit set_firstZero set_headerHits set_dataByte set_nosBits
       set_nosBytes set_manchester set_dataType set_differencetemp set_differencehum
       set_Newtemp set_Newhum set_chTemp set_chHum set_chLastRecv set_isrcalled
       set_Dstop set_trace log next_bit arrive reset bind negb andb orb] in H.

(** ** What [saveReading] and the frame block leave alone *)

Lemma saveReading_keeps (now c t h : Z) (s : State) :
  let s' := saveReading now c t h s in
  rxstate s' = rxstate s /\ tempBit s' = tempBit s /\ firstZero s' = firstZero s
  /\ headerHits s' = headerHits s /\ dataByte s' = dataByte s /\ nosBits s' = nosBits s
  /\ nosBytes s' = nosBytes s /\ manchester s' = manchester s
  /\ isrcalled s' = isrcalled s /\ Dstop s' = Dstop s.
Proof.
  destruct s; unfold saveReading, validate, due, forward, accept, log; simpl.
  repeat (match goal with |- context [if ?b then _ else _] => destruct b eqn:? end;
          simpl; try done).
Qed.

Lemma interpret_keeps (now : Z) (s : State) :
  let s' := interpret now s in
  rxstate s' = 0 /\ tempBit s' = tempBit s /\ firstZero s' = firstZero s
  /\ headerHits s' = headerHits s /\ dataByte s' = dataByte s /\ nosBits s' = nosBits s
  /\ nosBytes s' = nosBytes s /\ manchester s' = manchester s
  /\ isrcalled s' = isrcalled s /\ Dstop s' = Dstop s.
Proof.
  unfold interpret. fields.
  destruct ((frame_dataType (manchester s) =? 69) && (frame_Newhum (manchester s) <=? 100));
    [| fields; done].
  match goal with |- context [saveReading ?n ?c ?t ?h ?x] =>
    pose proof (saveReading_keeps n c t h x) as H; remember (saveReading n c t h x) as y eqn:E;
    clear E end.
  cbv zeta in H. fields_in H. done.
Qed.

Lemma marked_ext (c t h : Z) (s1 s2 : State) :
  chTemp s1 = chTemp s2 -> chHum s1 = chHum s2 -> marked c t h s1 = marked c t h s2.
Proof.
  intros Et Eh. unfold marked, validate, accept. fields. rewrite Et, Eh.
  repeat (match goal with |- context [if ?b then _ else _] => destruct b eqn:? end;
          try done).
Qed.

Lemma due_ext (now c : Z) (s1 s2 : State) :
  chLastRecv s1 = chLastRecv s2 -> due now c s1 = due now c s2.
Proof. intros E. unfold due. by rewrite E. Qed.

(** ** The channel filter *)

(** A reading on one channel changes nothing that is stored for another
    channel. *)
Theorem other_channels_untouched (now c c' t h : Z) (s : State) :
  0 <= c' -> c <> c' ->
  let s' := saveReading now c t h s in
  rd (chTemp s') c' = rd (chTemp s) c'
  /\ rd (chHum s') c' = rd (chHum s) c'
  /\ rd (chLastRecv s') c' = rd (chLastRecv s) c'.
Proof.
  intros Hc' Hne s'. subst s'.
  destruct (decide (0 <= c <= 7)) as [Hc | Hc].
  - destruct (saveReading_effect now c t h s Hc) as (Et & Eh & El & _).
    rewrite Et, Eh, El.
    destruct (marked c t h s), (forwarded now c t h s);
      rewrite ?rd_wr_ne by lia; done.
  - rewrite saveReading_out_of_range by done. done.
Qed.

Lemma other_channels_untouched_witness :
  rd (chTemp (saveReading 5000 0 1099 11 tracking)) 3 = rd (chTemp tracking) 3
  /\ rd (chHum (saveReading 5000 0 1099 11 tracking)) 3 = rd (chHum tracking) 3
  /\ rd (chLastRecv (saveReading 5000 0 1099 11 tracking)) 3 = rd (chLastRecv tracking) 3.
Proof.
  apply (other_channels_untouched 5000 0 3 1099 11 tracking); lia.
Defined.

(** 720 is the sentinel and also a raw temperature the sensor can send
    (32 F).  Once a reading of 720 is accepted on a channel, the next
    reading on it is accepted whatever its values: the plausibility window
    is not applied. *)
Theorem reading_720_reopens_channel (now c h t2 h2 : Z) (s : State) :
  0 <= c <= 7 -> length (chTemp s) = 8%nat ->
  marked c 720 h s = true ->
  marked c t2 h2 (saveReading now c 720 h s) = true.
Proof.
  intros Hc Hl Hm. apply marked_sentinel.
  destruct (saveReading_effect now c 720 h s Hc) as (Et & _).
  rewrite Et, Hm. apply rd_wr_eq. lia.
Qed.

Lemma reading_720_reopens_channel_witness :
  marked 0 720 50 tracking = false
  /\ marked 0 2047 0 (saveReading 5000 0 720 11 power_on) = true.
Proof.
  split; [reflexivity |].
  apply (reading_720_reopens_channel 5000 0 11 2047 0 power_on);
    [lia | reflexivity | reflexivity].
Defined.

(** A rejected reading does not move the filter: after it, every reading
    gets the verdict it would have got before, and the rate limit stands
    as it stood.  So a real jump of 20 or more is rejected again and again
    until the sensor comes back into the window. *)
Theorem rejected_reading_changes_no_verdict (now c t h : Z) (s : State) :
  0 <= c <= 7 ->
  marked c t h s = false ->
  forall now' c' t' h',
    marked c' t' h' (saveReading now c t h s) = marked c' t' h' s
    /\ forwarded now' c' t' h' (saveReading now c t h s) = forwarded now' c' t' h' s.
Proof.
  intros Hc Hm now' c' t' h'.
  destruct (saveReading_effect now c t h s Hc) as (Et & Eh & El & _).
  unfold forwarded in El. rewrite Hm in Et, Eh, El. cbn [andb] in El.
  assert (E : marked c' t' h' (saveReading now c t h s) = marked c' t' h' s)
    by (by apply marked_ext).
  split; [done |]. unfold forwarded. rewrite E. f_equal. by apply due_ext.
Qed.

Lemma rejected_reading_changes_no_verdict_witness :
  marked 0 1021 52 tracking = false
  /\ marked 0 1021 52 (saveReading 5000 0 1021 52 tracking) = false.
Proof.
  assert (H : marked 0 1021 52 tracking = false) by reflexivity.
  split; [exact H |].
  destruct (rejected_reading_changes_no_verdict 5000 0 1021 52 tracking ltac:(lia) H
              5000 0 1021 52) as [E _].
  rewrite E. exact H.
Defined.

(** ** [setup] and [isr] *)

Lemma fill8_replicate (v : Z) (a : list Z) :
  length a = 8%nat -> fill8 v a = replicate 8 v.
Proof.
  intros H.
  destruct a as [| a0 [| a1 [| a2 [| a3 [| a4 [| a5 [| a6 [| a7 [| ? ?]]]]]]]]]; done.
Qed.

Lemma setup_tables (s : State) :
  length (manchester s) = 7%nat -> length (chTemp s) = 8%nat ->
  length (chHum s) = 8%nat -> length (chLastRecv s) = 8%nat ->
  chTemp (setup s) = replicate 8 720
  /\ chHum (setup s) = replicate 8 0
  /\ chLastRecv (setup s) = replicate 8 0
  /\ take 4 (manchester (setup s)) = [0; 1; 2; 3]
  /\ drop 4 (manchester (setup s)) = drop 4 (manchester s).
Proof.
  intros Hm Ht Hh Hl. unfold setup, eraseManchester. cbn [fold_left]. fields.
  rewrite !fill8_replicate by done.
  split; [done |]. split; [done |]. split; [done |].
  destruct (manchester s) as [| m0 [| m1 [| m2 [| m3 [| m4 [| m5 [| m6 [| ? ?]]]]]]]];
    done.
Qed.

(** [setup] leaves every channel in the "never received" state, whatever
    the tables held, and writes 0, 1, 2, 3 into the first four bytes of
    the buffer without touching the other three. *)
Theorem setup_resets_channels (s : State) :
  length (manchester s) = 7%nat -> length (chTemp s) = 8%nat ->
  length (chHum s) = 8%nat -> length (chLastRecv s) = 8%nat ->
  chTemp (setup s) = replicate 8 720
  /\ chHum (setup s) = replicate 8 0
  /\ chLastRecv (setup s) = replicate 8 0
  /\ take 4 (manchester (setup s)) = [0; 1; 2; 3]
  /\ drop 4 (manchester (setup s)) = drop 4 (manchester s).
Proof. apply setup_tables. Qed.

Lemma setup_resets_channels_witness :
  chTemp (setup boot) = replicate 8 720
  /\ chHum (setup boot) = replicate 8 0
  /\ chLastRecv (setup boot) = replicate 8 0
  /\ take 4 (manchester (setup boot)) = [0; 1; 2; 3]
  /\ drop 4 (manchester (setup boot)) = drop 4 (manchester boot).
Proof.
  apply (setup_resets_channels boot); reflexivity.
Defined.

(** The state the claims start from is the one [setup] makes of the
    initialised globals. *)
Lemma setup_boot : setup boot = power_on.
Proof. reflexivity. Qed.

(** After [setup] the first reading of any channel is accepted and
    stored, but it is printed only if it comes more than 1000 ms after the
    start of the clock: the time stamps start at 0. *)
Theorem first_second_is_silent (now c t h : Z) (s : State) :
  length (manchester s) = 7%nat -> length (chTemp s) = 8%nat ->
  length (chHum s) = 8%nat -> length (chLastRecv s) = 8%nat ->
  0 <= c <= 7 -> is_ulong now ->
  marked c t h (setup s) = true
  /\ rd (chTemp (saveReading now c t h (setup s))) c = t
  /\ forwarded now c t h (setup s) = (now >? 1000).
Proof.
  intros Hm Ht Hh Hl Hc Hnow.
  destruct (setup_tables s Hm Ht Hh Hl) as (Et & Eh & El & _).
  assert (Hs : rd (chTemp (setup s)) c = 720).
  { rewrite Et. unfold rd. apply lookup_total_replicate_2. lia. }
  assert (Hz : rd (chLastRecv (setup s)) c = 0).
  { rewrite El. unfold rd. apply lookup_total_replicate_2. lia. }
  pose proof (marked_sentinel c t h _ Hs) as Hmk.
  split; [done |]. split.
  - destruct (saveReading_effect now c t h (setup s) Hc) as (Et' & _).
    rewrite Et', Hmk. apply rd_wr_eq. rewrite Et, length_replicate. lia.
  - unfold forwarded, due. rewrite Hmk, Hz, Z.sub_0_r. cbn [andb].
    unfold is_ulong in Hnow. rewrite to_ulong_small by done.
    assert (E : (0 >? now) = false) by lia. by rewrite E.
Qed.

Lemma first_second_is_silent_witness :
  marked 0 1099 11 (setup boot) = true
  /\ rd (chTemp (saveReading 800 0 1099 11 (setup boot))) 0 = 1099
  /\ forwarded 800 0 1099 11 (setup boot) = (800 >? 1000).
Proof.
  apply (first_second_is_silent 800 0 1099 11 boot);
    [reflexivity | reflexivity | reflexivity | reflexivity | lia | unfold is_ulong; lia].
Defined.

(** The interrupt routine keeps the first edge: until the flag is cleared
    a second call changes neither the flag nor the time stamp, so the edge
    it reports is dropped. *)
Theorem isr_keeps_first_edge (us1 us2 : Z) (g : State * Z) :
  isrcalled (fst (isr us1 g)) = true
  /\ (isrcalled (fst g) = false -> snd (isr us1 g) = us1)
  /\ isr us2 (isr us1 g) = isr us1 g.
Proof.
  destruct g as [s edge]. unfold isr. cbn [fst snd].
  destruct (isrcalled s) eqn:E; cbn [negb fst snd].
  - rewrite E. done.
  - fields. done.
Qed.

(** ** Invariants of [loop] *)

Lemma Forall_wr (P : Z -> Prop) (a : list Z) (i v : Z) :
  Forall P a -> P v -> Forall P (wr a i v).
Proof. intros Ha Hv. unfold wr. by apply Forall_insert. Qed.

Lemma Forall_rd (P : Z -> Prop) (a : list Z) (i : Z) :
  Forall P a -> (Z.to_nat i < length a)%nat -> P (rd a i).
Proof.
  intros Ha Hi. unfold rd.
  eapply Forall_lookup_1; [exact Ha |]. by apply list_lookup_lookup_total_lt.
Qed.

Lemma saveReading_chan_inv (now c t h : Z) (s : State) :
  0 <= c <= 7 -> temp_ok t -> hum_ok h -> is_ulong now ->
  chan_inv s -> chan_inv (saveReading now c t h s).
Proof.
  intros Hc Ht Hh Hnow [Hlt Hlh Hll Ft Fh Fl Ftr].
  destruct (saveReading_effect now c t h s Hc) as (Et & Eh & El & Etr).
  constructor; rewrite ?Et, ?Eh, ?El, ?Etr.
  - destruct (marked c t h s); by rewrite ?length_wr.
  - destruct (marked c t h s); by rewrite ?length_wr.
  - destruct (forwarded now c t h s); by rewrite ?length_wr.
  - destruct (marked c t h s); [by apply Forall_wr | done].
  - destruct (marked c t h s); [by apply Forall_wr | done].
  - destruct (forwarded now c t h s); [by apply Forall_wr | done].
  - assert (Hr : event_ok (Reading c t h)) by done.
    assert (Hs : event_ok (Sent (c + 1) t h)) by (cbn; split; [lia | done]).
    destruct (forwarded now c t h s); cbn [app];
      [constructor; [exact Hs |] |]; (constructor; [exact Hr | exact Ftr]).
Qed.

(** The fields of a frame, on a well-formed buffer. *)
Lemma frame_field_ranges (m : list Z) :
  wf_buffer m ->
  0 <= frame_stnId m <= 7 /\ temp_ok (frame_Newtemp m) /\ is_byte (frame_Newhum m).
Proof.
  intros Hwf.
  pose proof (wf_buffer_rd m 3 Hwf ltac:(lia)) as H3.
  pose proof (wf_buffer_rd m 4 Hwf ltac:(lia)) as H4.
  pose proof (wf_buffer_rd m 5 Hwf ltac:(lia)) as H5.
  unfold is_byte in H3, H4. split; [| split; [| done]].
  - unfold frame_stnId. rewrite stnId_bits by lia. apply land_7_range.
  - pose proof (land_7_range (rd m 3)). unfold temp_ok, frame_Newtemp. lia.
Qed.

Lemma take6_wf (m : list Z) : wf_buffer m -> event_ok (Frame (take 6 m)).
Proof.
  intros [Hl Hb]. split.
  - rewrite length_take. lia.
  - by apply Forall_take.
Qed.

Lemma interpret_chan_inv (now : Z) (s : State) :
  is_ulong now -> wf_buffer (manchester s) ->
  chan_inv s -> chan_inv (interpret now s).
Proof.
  intros Hnow Hwf Hci.
  destruct (frame_field_ranges _ Hwf) as (Hc & Ht & Hh).
  pose proof (take6_wf _ Hwf) as Hf.
  assert (Hlog : chan_inv (set_Newhum (frame_Newhum (manchester s))
                   (set_Newtemp (frame_Newtemp (manchester s))
                     (set_dataType (frame_dataType (manchester s))
                       (set_rxstate 0 (log (Frame (take 6 (manchester s))) s)))))).
  { destruct Hci. constructor; fields; try done. by constructor. }
  unfold interpret. fields.
  destruct ((frame_dataType (manchester s) =? 69) && (frame_Newhum (manchester s) <=? 100))
    eqn:E; [| exact Hlog].
  apply saveReading_chan_inv; try done.
  unfold hum_ok. unfold is_byte in Hh. lia.
Qed.

Lemma shift_in_keeps (b : Z) (s s1 : State) :
  shift_in b s = Some s1 ->
  rxstate s1 = rxstate s /\ tempBit s1 = tempBit s /\ firstZero s1 = firstZero s
  /\ headerHits s1 = headerHits s /\ isrcalled s1 = isrcalled s /\ Dstop s1 = Dstop s.
Proof.
  unfold shift_in, store. fields.
  destruct (to_byte (nosBits s + 1) =? 8).
  - fields. destruct ((0 <=? nosBytes s) && (nosBytes s <? manchester_len));
      cbn [bind]; [| discriminate].
    intros H; inversion H; subst; clear H. fields. done.
  - intros H; inversion H; subst; clear H. fields. done.
Qed.

Lemma shift_in_buf_inv (b : Z) (s s1 : State) :
  shift_in b s = Some s1 -> buf_inv s -> buf_inv s1.
Proof.
  intros H [Hd Hnb Hk Hm]. revert H. unfold shift_in, store. fields.
  destruct (to_byte (nosBits s + 1) =? 8) eqn:E8.
  - fields. destruct ((0 <=? nosBytes s) && (nosBytes s <? manchester_len)) eqn:Eb;
      cbn [bind]; [| discriminate].
    unfold manchester_len in Eb.
    intros H; inversion H; subst; clear H.
    constructor; fields.
    + apply to_byte_range.
    + lia.
    + rewrite to_byte_small by lia. lia.
    + by apply wf_buffer_wr.
  - intros H; inversion H; subst; clear H.
    rewrite to_byte_small in E8 by lia.
    constructor; fields; try done.
    + apply to_byte_range.
    + rewrite to_byte_small by lia. lia.
Qed.

(** What [add] keeps: everything of the synchroniser but [rxstate], which
    it may set to 0. *)
Lemma add_inv_all (now b : Z) (s s' : State) :
  add now b s = Some s' -> is_ulong now ->
  buf_inv s -> chan_inv s ->
  buf_inv s' /\ chan_inv s'
  /\ (rxstate s' = rxstate s \/ rxstate s' = 0)
  /\ tempBit s' = tempBit s /\ firstZero s' = firstZero s
  /\ headerHits s' = headerHits s /\ isrcalled s' = isrcalled s /\ Dstop s' = Dstop s.
Proof.
  intros H Hnow Hb Hc.
  apply add_inv in H as (s1 & Hs1 & Hcase).
  pose proof (shift_in_buf_inv _ _ _ Hs1 Hb) as Hb1.
  pose proof (shift_in_keeps _ _ _ Hs1) as (Erx & Etb & Efz & Ehh & Ei & ED).
  pose proof (shift_in_inv _ _ _ Hs1) as (Etr & Et & Eh & El & _).
  assert (Hc1 : chan_inv s1).
  { destruct Hc. constructor; rewrite ?Etr, ?Et, ?Eh, ?El; done. }
  destruct Hcase as [[_ ->] | [_ ->]].
  - pose proof (interpret_keeps now s1) as (Krx & Ktb & Kfz & Khh & Kd & Knb & Kk & Km & Ki & KD).
    pose proof (interpret_chan_inv now s1 Hnow (bi_m _ Hb1) Hc1) as Hc'.
    remember (interpret now s1) as s2 eqn:E2. clear E2.
    split; [| split; [done | split; [by right |]]].
    + destruct Hb1. constructor; rewrite ?Kd, ?Knb, ?Kk, ?Km; done.
    + rewrite Ktb, Kfz, Khh, Ki, KD. done.
  - split; [done |]. split; [done |]. split; [by left | done].
Qed.

Lemma buf_inv_ext (s s' : State) :
  dataByte s' = dataByte s -> nosBits s' = nosBits s -> nosBytes s' = nosBytes s ->
  manchester s' = manchester s -> buf_inv s -> buf_inv s'.
Proof. intros Ed En Ek Em [? ? ? ?]. constructor; rewrite ?Ed, ?En, ?Ek, ?Em; done. Qed.

Lemma chan_inv_ext (s s' : State) :
  chTemp s' = chTemp s -> chHum s' = chHum s -> chLastRecv s' = chLastRecv s ->
  trace s' = trace s -> chan_inv s -> chan_inv s'.
Proof.
  intros Et Eh El Etr [? ? ? ? ? ? ?]. constructor; rewrite ?Et, ?Eh, ?El, ?Etr; done.
Qed.

Lemma dispatch_inv (now : Z) (s s' : State) :
  dispatch now s = Some s' -> is_ulong now ->
  sync_rest s -> buf_inv s -> chan_inv s ->
  0 <= rxstate s' <= 1 /\ sync_rest s' /\ buf_inv s' /\ chan_inv s'.
Proof.
  intros H Hnow (Htb & Hhh & Hfz & HD) Hb Hc. revert H. unfold dispatch.
  destruct (to_byte (Z.lxor (tempBit s) polarity) =? 1).
  - destruct (firstZero s) eqn:Efz; cbn [negb].
    + intros H. apply bind_Some in H as (s1 & Hs1 & H). inversion H; subst; clear H.
      destruct (add_inv_all _ _ _ _ Hs1 Hnow Hb Hc)
        as (Hb1 & Hc1 & _ & Etb & Efz1 & Ehh & _ & ED).
      fields. split; [lia |]. split; [| split].
      * unfold sync_rest, bit_ok. fields. unfold bit_ok in Htb.
        rewrite Etb, Efz1, Ehh, ED.
        split; [done |]. split; [done |]. split; [intros _; by apply Hfz | done].
      * by apply (buf_inv_ext s1).
      * by apply (chan_inv_ext s1).
    + intros H. inversion H; subst; clear H. fields. split; [lia |]. split; [| split].
      * unfold sync_rest, bit_ok. fields. unfold bit_ok in Htb.
        split; [done |]. split; [apply to_byte_range |]. split; [by rewrite Efz | done].
      * by apply (buf_inv_ext s).
      * by apply (chan_inv_ext s).
  - destruct (headerHits s <? headerBits) eqn:Ehb.
    + intros H. inversion H; subst; clear H. fields. split; [lia |]. split; [| split].
      * unfold sync_rest, bit_ok. fields. done.
      * by apply (buf_inv_ext s).
      * by apply (chan_inv_ext s).
    + intros H. apply bind_Some in H as (s1 & Hs1 & H). inversion H; subst; clear H.
      assert (Hb0 : buf_inv (set_firstZero true s)) by (by apply (buf_inv_ext s)).
      assert (Hc0 : chan_inv (set_firstZero true s)) by (by apply (chan_inv_ext s)).
      destruct (add_inv_all _ _ _ _ Hs1 Hnow Hb0 Hc0)
        as (Hb1 & Hc1 & _ & Etb & Efz1 & Ehh & _ & ED).
      fields_in Etb. fields_in Efz1. fields_in Ehh. fields_in ED.
      fields. split; [lia |]. split; [| split].
      * unfold sync_rest, bit_ok. fields. unfold bit_ok in Htb.
        rewrite Etb, Ehh, ED. split; [done |]. split; [done |]. split; [lia | done].
      * by apply (buf_inv_ext s1).
      * by apply (chan_inv_ext s1).
Qed.

Lemma case4_inv (e : Env) (s s' : State) :
  case4 e s = Some s' -> env_ok e ->
  sync_rest s -> buf_inv s -> chan_inv s ->
  0 <= rxstate s' <= 1 /\ sync_rest s' /\ buf_inv s' /\ chan_inv s'.
Proof.
  intros H (_ & _ & _ & Hnow) Hs Hb Hc. unfold case4 in H.
  destruct (level (pin_bit e) =? tempBit s); [| by apply (dispatch_inv (millis e) s)].
  apply (dispatch_inv (millis e) _ _ H Hnow).
  - destruct Hs as (Htb & Hhh & Hfz & HD). unfold sync_rest, bit_ok. fields.
    split; [| done]. destruct Htb as [-> | ->]; [by right | by left].
  - by apply (buf_inv_ext s).
  - by apply (chan_inv_ext s).
Qed.

Lemma case3_inv (e : Env) (s s' : State) :
  case3 e s = Some s' -> env_ok e ->
  0 <= rxstate s <= 3 -> sync_rest s -> buf_inv s -> chan_inv s ->
  0 <= rxstate s' <= 3 /\ sync_rest s' /\ buf_inv s' /\ chan_inv s'.
Proof.
  intros H He Hrx Hs Hb Hc. unfold case3 in H.
  destruct (micros_l e >? Dstop s).
  - destruct (case4_inv e _ _ H He) as (Hrx' & Hrest); [done | | | ].
    + by apply (buf_inv_ext s).
    + by apply (chan_inv_ext s).
    + split; [lia | done].
  - inversion H; subst. done.
Qed.

Lemma case2_inv (e : Env) (s s' : State) :
  case2 e s = Some s' -> env_ok e ->
  0 <= rxstate s <= 3 -> sync_rest s -> buf_inv s -> chan_inv s ->
  0 <= rxstate s' <= 3 /\ sync_rest s' /\ buf_inv s' /\ chan_inv s'.
Proof.
  intros H He Hrx Hs Hb Hc. unfold case2 in H.
  destruct (micros_s e >? Dstop s); [| inversion H; subst; done].
  destruct (negb (level (pin_s e) =? tempBit s)).
  - inversion H; subst; clear H. fields. split; [lia |]. split; [done |].
    split; [by apply (buf_inv_ext s) | by apply (chan_inv_ext s)].
  - apply (case3_inv e _ _ H He); fields; [lia | | by apply (buf_inv_ext s)
                                           | by apply (chan_inv_ext s)].
    destruct Hs as (Htb & Hhh & Hfz & HD). unfold sync_rest, bit_ok. fields.
    split; [done |]. split; [done |]. split; [done |].
    unfold is_ulong, to_ulong. apply Z.mod_pos_bound. lia.
Qed.

Lemma case1_inv (e : Env) (s s' : State) :
  case1 e s = Some s' -> env_ok e ->
  0 <= rxstate s <= 3 -> sync_rest s -> buf_inv s -> chan_inv s ->
  0 <= rxstate s' <= 3 /\ sync_rest s' /\ buf_inv s' /\ chan_inv s'.
Proof.
  intros H He Hrx Hs Hb Hc. unfold case1 in H.
  destruct (level (pin_wait e) =? tempBit s); [| inversion H; subst; done].
  apply (case2_inv e _ _ H He); fields; [lia | | by apply (buf_inv_ext s)
                                         | by apply (chan_inv_ext s)].
  destruct Hs as (Htb & Hhh & Hfz & HD). unfold sync_rest, bit_ok. fields.
  split; [done |]. split; [done |]. split; [done |].
  unfold is_ulong, to_ulong. apply Z.mod_pos_bound. lia.
Qed.

Lemma case0_inv (e : Env) (s s' : State) :
  case0 e s = Some s' -> env_ok e ->
  rxstate s = 0 -> sync_rest s -> buf_inv s -> chan_inv s ->
  0 <= rxstate s' <= 3 /\ sync_rest s' /\ buf_inv s' /\ chan_inv s'.
Proof.
  intros H He Hrx Hs Hb Hc. unfold case0 in H.
  apply (case1_inv e _ _ H He); fields.
  - rewrite Hrx. change (to_byte (0 + 1)) with 1. lia.
  - destruct Hs as (Htb & Hhh & Hfz & HD). unfold sync_rest, bit_ok. fields.
    split; [by right |]. split; [done |]. split; [done | done].
  - destruct Hb as [Hd Hnb Hk Hm]. constructor; fields; try done; lia.
  - by apply (chan_inv_ext s).
Qed.

Lemma loop_inv (e : Env) (s s' : State) :
  loop e s = Some s' -> env_ok e -> inv s -> inv s'.
Proof.
  intros H He ([Hrx Htb Hhh Hfz HD] & Hb & Hc).
  assert (Hs : sync_rest s) by done.
  assert (Hres : 0 <= rxstate s' <= 3 /\ sync_rest s' /\ buf_inv s' /\ chan_inv s').
  { unfold loop in H.
    destruct (rxstate s) as [| [p | [| |] | ] |] eqn:Erx; try lia.
    - by apply (case0_inv e s).
    - destruct p as [p | p |]; try lia. apply (case3_inv e s); try done. lia.
    - apply (case2_inv e s); try done. lia.
    - apply (case1_inv e s); try done. lia. }
  destruct Hres as (Hrx' & (Htb' & Hhh' & Hfz' & HD') & Hb' & Hc').
  split; [by constructor | done].
Qed.

Lemma inv_power_on : inv power_on.
Proof.
  split; [| split].
  - constructor;
      [cbn; lia | by right | unfold is_byte; cbn; lia | cbn; discriminate
       | unfold is_ulong; cbn; lia].
  - constructor; [unfold is_byte; cbn; lia | cbn; lia | cbn; lia |].
    split; [done |]. cbn. repeat (constructor; [unfold is_byte; lia |]). constructor.
  - constructor; cbn; [done | done | done | | | | constructor].
    + repeat (constructor; [unfold temp_ok; lia |]). constructor.
    + repeat (constructor; [unfold hum_ok; lia |]). constructor.
    + repeat (constructor; [unfold is_ulong; lia |]). constructor.
Qed.

Lemma reachable_inv (s : State) : reachable s -> inv s.
Proof.
  induction 1 as [| e s s' _ IH He Hl | us edge s _ IH].
  - apply inv_power_on.
  - by apply (loop_inv e s).
  - unfold isr. cbn [fst]. destruct (negb (isrcalled s)); cbn [fst]; [| done].
    destruct IH as ([? ? ? ? ?] & Hb & Hc).
    split; [by constructor |]. split; [by apply (buf_inv_ext s) | by apply (chan_inv_ext s)].
Qed.

(** ** The shape of a call of [loop] *)

Lemma same_store_refl (s : State) : same_store s s.
Proof. by repeat split. Qed.

Lemma same_store_trans (s1 s2 s3 : State) :
  same_store s1 s2 -> same_store s2 s3 -> same_store s1 s3.
Proof.
  intros (A1 & A2 & A3 & A4 & A5 & A6) (B1 & B2 & B3 & B4 & B5 & B6).
  repeat split; congruence.
Qed.

Lemma quiet_or_add_pre (e : Env) (s s0 s' : State) :
  same_store s s0 -> (isrcalled s0 = isrcalled s \/ isrcalled s0 = false) ->
  quiet_or_add e s0 s' -> quiet_or_add e s s'.
Proof.
  intros Hss Hi [[Hq Hf] | (b & sa & sb & Hq & Ha & ->)].
  - left. split; [by apply (same_store_trans s s0) |].
    destruct Hf as [Hf | Hf], Hi as [Hi | Hi]; [left | right | right | right]; congruence.
  - right. exists b, sa, sb. split; [by apply (same_store_trans s s0) | done].
Qed.

Lemma dispatch_shape (e : Env) (s s' : State) :
  dispatch (millis e) s = Some s' -> quiet_or_add e s s'.
Proof.
  unfold dispatch.
  destruct (to_byte (Z.lxor (tempBit s) polarity) =? 1).
  - destruct (negb (firstZero s)).
    + intros H; inversion H; subst; clear H. left. split; [| by right].
      repeat split.
    + intros H. apply bind_Some in H as (s1 & Hs1 & H). inversion H; subst; clear H.
      right. eexists _, s, s1. split; [apply same_store_refl | done].
  - destruct (headerHits s <? headerBits).
    + intros H; inversion H; subst; clear H. left. split; [| by left]. repeat split.
    + intros H. apply bind_Some in H as (s1 & Hs1 & H). inversion H; subst; clear H.
      right. eexists _, _, s1. split; [| done]. repeat split.
Qed.

Lemma case4_shape (e : Env) (s s' : State) :
  case4 e s = Some s' -> quiet_or_add e s s'.
Proof.
  unfold case4. destruct (level (pin_bit e) =? tempBit s); intros H.
  - apply dispatch_shape in H. eapply quiet_or_add_pre; [| | exact H].
    + repeat split.
    + by left.
  - by apply dispatch_shape.
Qed.

Lemma case3_shape (e : Env) (s s' : State) :
  case3 e s = Some s' -> quiet_or_add e s s'.
Proof.
  unfold case3. destruct (micros_l e >? Dstop s); intros H.
  - apply case4_shape in H. eapply quiet_or_add_pre; [| | exact H].
    + repeat split.
    + by left.
  - inversion H; subst. left. split; [apply same_store_refl | by left].
Qed.

Lemma case2_shape (e : Env) (s s' : State) :
  case2 e s = Some s' -> quiet_or_add e s s'.
Proof.
  unfold case2. destruct (micros_s e >? Dstop s).
  - destruct (negb (level (pin_s e) =? tempBit s)); intros H.
    + inversion H; subst. left. split; [repeat split | by left].
    + apply case3_shape in H. eapply quiet_or_add_pre; [| | exact H].
      * repeat split.
      * by left.
  - intros H. inversion H; subst. left. split; [apply same_store_refl | by left].
Qed.

Lemma case1_shape (e : Env) (s s' : State) :
  case1 e s = Some s' -> quiet_or_add e s s'.
Proof.
  unfold case1. destruct (level (pin_wait e) =? tempBit s); intros H.
  - apply case2_shape in H. eapply quiet_or_add_pre; [| | exact H].
    + repeat split.
    + by left.
  - inversion H; subst. left. split; [apply same_store_refl | by left].
Qed.

Lemma loop_split (e : Env) (s s' : State) :
  loop e s = Some s' ->
  (rxstate s = 0 /\ case0 e s = Some s')
  \/ (rxstate s = 1 /\ case1 e s = Some s')
  \/ (rxstate s = 2 /\ case2 e s = Some s')
  \/ (rxstate s = 3 /\ case3 e s = Some s')
  \/ (rxstate s = 4 /\ case4 e s = Some s')
  \/ (~ 0 <= rxstate s <= 4 /\ s' = s).
Proof.
  unfold loop. intros H.
  repeat match type of H with
         | context [match ?p with _ => _ end] => destruct p eqn:?
         end;
    first [ by left
          | by right; left
          | by right; right; left
          | by right; right; right; left
          | by right; right; right; right; left
          | right; right; right; right; right; split; [lia | congruence] ].
Qed.

Lemma loop_shape (e : Env) (s s' : State) :
  loop e s = Some s' -> quiet_or_add e s s'.
Proof.
  intros H.
  destruct (loop_split e s s' H)
    as [[_ H0] | [[_ H1] | [[_ H2] | [[_ H3] | [[_ H4] | [_ ->]]]]]].
  - unfold case0 in H0. apply case1_shape in H0.
    eapply quiet_or_add_pre; [| | exact H0].
    + repeat split.
    + by right.
  - by apply case1_shape.
  - by apply case2_shape.
  - by apply case3_shape.
  - by apply case4_shape.
  - left. split; [apply same_store_refl | by left].
Qed.

(** ** What holds in every reachable state *)

Lemma clean_ok (s : State) (b : bool) (now : Z) : is_ulong now -> env_ok (clean s b now).
Proof.
  intros H. unfold env_ok, clean, is_ulong, sDelay, lDelay. cbn. unfold is_ulong in H. lia.
Qed.

Lemma feed_reachable (now : Z) (bits : list bool) :
  is_ulong now -> forall s s', reachable s -> feed now bits s = Some s' -> reachable s'.
Proof.
  intros Hnow. induction bits as [| b bits IH]; intros s s' Hr H.
  - inversion H; subst. done.
  - cbn [feed] in H. apply bind_Some in H as (s1 & Hs1 & H).
    apply (IH s1 s'); [| done].
    apply (reach_loop (clean s b now) s s1 Hr); [by apply clean_ok | done].
Qed.

Lemma sample_received_reachable : reachable sample_received.
Proof.
  apply (feed_reachable 5000
           (header10 ++ true :: concat (map bits_of_byte [0x45; 0x4F; 0x04; 0x4B; 0x0B]))
           ltac:(unfold is_ulong; lia) power_on); [apply reach_setup |].
  vm_compute. reflexivity.
Qed.

(** Between two calls of [loop] the receiver is in one of the cases 0 to 3
    (case 4 is always left within the call), [tempBit] is a pin level, the
    bit counter is below 8, and the bytes of the buffer are bytes. *)
Theorem between_calls (s : State) :
  reachable s ->
  0 <= rxstate s <= 3 /\ bit_ok s /\ 0 <= nosBits s <= 7
  /\ wf_buffer (manchester s).
Proof.
  intros Hr. destruct (reachable_inv s Hr) as ([Hrx Htb _ _ _] & [_ Hnb _ Hm] & _).
  done.
Qed.

Lemma between_calls_witness :
  0 <= rxstate sample_received <= 3 /\ bit_ok sample_received
  /\ 0 <= nosBits sample_received <= 7
  /\ wf_buffer (manchester sample_received).
Proof.
  apply (between_calls sample_received). apply sample_received_reachable.
Defined.

(** Payload bits are only ever collected behind a header: whenever
    [firstZero] is set, at least ten ones have been counted.  The count is
    a byte. *)
Theorem payload_needs_header (s : State) :
  reachable s -> firstZero s = true -> headerBits <= headerHits s < 256.
Proof.
  intros Hr Hfz. destruct (reachable_inv s Hr) as ([_ _ Hhh Himp _] & _ & _).
  unfold is_byte in Hhh. specialize (Himp Hfz). lia.
Qed.

Lemma payload_needs_header_witness :
  firstZero sample_received = true /\ headerBits <= headerHits sample_received < 256.
Proof.
  assert (H : firstZero sample_received = true) by (vm_compute; reflexivity).
  split; [exact H |].
  apply (payload_needs_header sample_received sample_received_reachable H).
Defined.

(** What is stored for a channel is always a value the frame block can
    deliver or the initial one: temperature within 0..2047, humidity
    within 0..100, time stamp an [unsigned long]. *)
Theorem stored_values_in_range (s : State) (c : Z) :
  reachable s -> 0 <= c <= 7 ->
  temp_ok (rd (chTemp s) c) /\ hum_ok (rd (chHum s) c) /\ is_ulong (rd (chLastRecv s) c).
Proof.
  intros Hr Hc. destruct (reachable_inv s Hr) as (_ & _ & [Hlt Hlh Hll Ft Fh Fl _]).
  split; [| split]; apply Forall_rd; try done; lia.
Qed.

Lemma stored_values_in_range_witness :
  temp_ok (rd (chTemp sample_received) 0) /\ hum_ok (rd (chHum sample_received) 0)
  /\ is_ulong (rd (chLastRecv sample_received) 0).
Proof.
  apply (stored_values_in_range sample_received 0 sample_received_reachable). lia.
Defined.

(** In a reachable state the two differences of [saveReading] never leave
    the range of [int]: for every reading the frame block can deliver, the
    verdict is exactly the plausibility window on the mathematical
    differences. *)
Theorem window_without_overflow (s : State) (c t h : Z) :
  reachable s -> 0 <= c <= 7 -> temp_ok t -> hum_ok h ->
  rd (chTemp s) c <> 720 ->
  (marked c t h s = true
   <-> -20 < t - rd (chTemp s) c < 20 /\ -5 < h - rd (chHum s) c < 5).
Proof.
  intros Hr Hc Ht Hh Hne.
  destruct (reachable_inv s Hr) as (_ & _ & [Hlt Hlh _ Ft Fh _ _]).
  assert (Ht' : temp_ok (rd (chTemp s) c)) by (apply Forall_rd; [done | lia]).
  assert (Hh' : hum_ok (rd (chHum s) c)) by (apply Forall_rd; [done | lia]).
  unfold temp_ok, hum_ok in *.
  apply marked_delta; [done | lia | lia].
Qed.

Lemma window_without_overflow_witness :
  marked 0 1110 12 sample_received = true
  <-> -20 < 1110 - rd (chTemp sample_received) 0 < 20
      /\ -5 < 12 - rd (chHum sample_received) 0 < 5.
Proof.
  apply (window_without_overflow sample_received 0 1110 12 sample_received_reachable);
    [lia | unfold temp_ok; lia | unfold hum_ok; lia | vm_compute; discriminate].
Defined.

(** Whatever was printed came through the gate: the channel number is
    from 1 to 8, the raw temperature within 0..2047 and the humidity at
    most 100. *)
Theorem printed_values_in_range (s : State) (ch t h : Z) :
  reachable s -> In (Sent ch t h) (trace s) ->
  1 <= ch <= 8 /\ 0 <= t <= 2047 /\ 0 <= h <= 100.
Proof.
  intros Hr Hin. destruct (reachable_inv s Hr) as (_ & _ & [_ _ _ _ _ _ Ftr]).
  rewrite Forall_forall in Ftr. apply list_elem_of_In in Hin.
  exact (Ftr _ Hin).
Qed.

Lemma printed_values_in_range_witness :
  In (Sent 1 1099 11) (trace sample_received)
  /\ 1 <= 1 <= 8 /\ 0 <= 1099 <= 2047 /\ 0 <= 11 <= 100.
Proof.
  assert (H : In (Sent 1 1099 11) (trace sample_received)).
  { vm_compute. left. reflexivity. }
  split; [exact H |].
  apply (printed_values_in_range sample_received 1 1099 11 sample_received_reachable H).
Defined.

(** [loop] never raises the interrupt flag: if it is set after a call, it
    was set before.  Only [isr] records an edge. *)
Theorem loop_never_raises_flag (e : Env) (s s' : State) :
  loop e s = Some s' -> isrcalled s' = true -> isrcalled s = true.
Proof.
  intros H Hf.
  destruct (loop_shape e s s' H) as [[_ [Hi | Hi]] | (b & s0 & s1 & _ & _ & ->)].
  - congruence.
  - congruence.
  - unfold next_bit in Hf. cbn in Hf. discriminate.
Qed.

Lemma loop_never_raises_flag_witness :
  loop idle_env waiting_flagged = Some waiting_flagged
  /\ isrcalled waiting_flagged = true.
Proof.
  assert (H : loop idle_env waiting_flagged = Some waiting_flagged)
    by (vm_compute; reflexivity).
  split; [exact H |].
  apply (loop_never_raises_flag idle_env waiting_flagged waiting_flagged H).
  vm_compute. reflexivity.
Defined.

(** ** Where [add] is undefined *)

(** [add] returns [None] exactly at a store outside the seven bytes. *)
Lemma add_None_iff (now b : Z) (s : State) :
  add now b s = None
  <-> to_byte (nosBits s + 1) = 8 /\ ~ 0 <= nosBytes s < manchester_len.
Proof.
  unfold add, shift_in, store. fields.
  destruct (to_byte (nosBits s + 1) =? 8) eqn:E8.
  - fields.
    destruct ((0 <=? nosBytes s) && (nosBytes s <? manchester_len)) eqn:Eb; cbn [bind].
    + fields. split; [| lia].
      destruct (to_byte (nosBytes s + 1) =? maxBytes); discriminate.
    + split; [lia | done].
  - cbn [bind]. fields. split; [| lia].
    destruct (nosBytes s =? maxBytes); discriminate.
Qed.

Lemma dispatch_None (now : Z) (s : State) :
  dispatch now s = None ->
  exists b s0, add now b s0 = None /\ nosBits s0 = nosBits s /\ nosBytes s0 = nosBytes s.
Proof.
  unfold dispatch.
  destruct (to_byte (Z.lxor (tempBit s) polarity) =? 1).
  - destruct (negb (firstZero s)); [discriminate |].
    destruct (add now _ s) eqn:E; [discriminate |]. intros _. by eexists _, s.
  - destruct (headerHits s <? headerBits); [discriminate |].
    destruct (add now _ (set_firstZero true s)) eqn:E; [discriminate |].
    intros _. by eexists _, _.
Qed.

Lemma case4_None (e : Env) (s : State) :
  case4 e s = None ->
  exists b s0, add (millis e) b s0 = None /\ nosBits s0 = nosBits s
               /\ nosBytes s0 = nosBytes s.
Proof.
  unfold case4. destruct (level (pin_bit e) =? tempBit s); intros H;
    apply dispatch_None in H as (b & s0 & H & En & Ek); by exists b, s0.
Qed.

Lemma case3_None (e : Env) (s : State) :
  case3 e s = None ->
  exists b s0, add (millis e) b s0 = None /\ nosBits s0 = nosBits s
               /\ nosBytes s0 = nosBytes s.
Proof.
  unfold case3. destruct (micros_l e >? Dstop s); [| discriminate].
  intros H. apply case4_None in H as (b & s0 & H & En & Ek). by exists b, s0.
Qed.

Lemma case2_None (e : Env) (s : State) :
  case2 e s = None ->
  exists b s0, add (millis e) b s0 = None /\ nosBits s0 = nosBits s
               /\ nosBytes s0 = nosBytes s.
Proof.
  unfold case2. destruct (micros_s e >? Dstop s); [| discriminate].
  destruct (negb (level (pin_s e) =? tempBit s)); [discriminate |].
  intros H. apply case3_None in H as (b & s0 & H & En & Ek). by exists b, s0.
Qed.

Lemma case1_None (e : Env) (s : State) :
  case1 e s = None ->
  exists b s0, add (millis e) b s0 = None /\ nosBits s0 = nosBits s
               /\ nosBytes s0 = nosBytes s.
Proof.
  unfold case1. destruct (level (pin_wait e) =? tempBit s); [| discriminate].
  intros H. apply case2_None in H as (b & s0 & H & En & Ek). by exists b, s0.
Qed.

Lemma loop_None (e : Env) (s : State) :
  loop e s = None ->
  rxstate s <> 0
  /\ exists b s0, add (millis e) b s0 = None /\ nosBits s0 = nosBits s
                  /\ nosBytes s0 = nosBytes s.
Proof.
  unfold loop. intros H.
  repeat match type of H with
         | context [match ?p with _ => _ end] => destruct p eqn:?
         end; try discriminate.
  - exfalso. unfold case0 in H. apply case1_None in H as (b & s0 & H & En & Ek).
    fields_in En. fields_in Ek.
    apply add_None_iff in H as [H8 _]. rewrite En in H8. discriminate.
  - split; [lia |]. by apply case3_None.
  - split; [lia |]. by apply case4_None.
  - split; [lia |]. by apply case2_None.
  - split; [lia |]. by apply case1_None.
Qed.

(** In a reachable state a call of [loop] is undefined only in one
    situation: the receiver is past case 0, seven bits of a byte are in, and
    seven bytes are already stored, so that the byte would go to index 7. *)
Theorem undefined_only_past_the_buffer (e : Env) (s : State) :
  reachable s -> loop e s = None ->
  rxstate s <> 0 /\ nosBits s = 7 /\ nosBytes s = 7.
Proof.
  intros Hr H. destruct (reachable_inv s Hr) as (_ & [_ Hnb Hk _] & _).
  apply loop_None in H as (Hrx & b & s0 & H & En & Ek).
  apply add_None_iff in H as [H8 Hout]. rewrite En in H8. rewrite Ek in Hout.
  unfold manchester_len in Hout. rewrite to_byte_small in H8 by lia.
  split; [done |]. lia.
Qed.

Lemma buffer_full_reachable : reachable buffer_full.
Proof.
  apply (feed_reachable 5000 (header10 ++ replicate 56 true)
           ltac:(unfold is_ulong; lia) power_on); [apply reach_setup |].
  vm_compute. reflexivity.
Qed.

Lemma undefined_only_past_the_buffer_witness :
  loop (clean buffer_full true 5000) buffer_full = None
  /\ rxstate buffer_full <> 0 /\ nosBits buffer_full = 7 /\ nosBytes buffer_full = 7.
Proof.
  assert (H : loop (clean buffer_full true 5000) buffer_full = None)
    by (vm_compute; reflexivity).
  split; [exact H |].
  apply (undefined_only_past_the_buffer _ buffer_full buffer_full_reachable H).
Defined.

(** ** What a call of [loop] can print *)

Lemma interpret_trace (now : Z) (s : State) :
  exists evs,
    trace (interpret now s) = evs ++ Frame (take 6 (manchester s)) :: trace s
    /\ (evs = []
        \/ exists c t h, evs = [Reading c t h] \/ evs = [Sent (c + 1) t h; Reading c t h]).
Proof.
  unfold interpret. fields.
  destruct ((frame_dataType (manchester s) =? 69) && (frame_Newhum (manchester s) <=? 100)).
  - match goal with |- context [saveReading ?n ?c ?t ?h ?x] =>
      destruct (decide (0 <= c <= 7)) as [Hc | Hc];
      [ destruct (saveReading_effect n c t h x Hc) as (_ & _ & _ & Etr);
        destruct (forwarded n c t h x)
      | pose proof (saveReading_out_of_range n c t h x Hc) as Etr ];
      remember (saveReading n c t h x) as y eqn:Ey; clear Ey
    end.
    + fields_in Etr.
      exists [Sent (frame_stnId (manchester s) + 1)
                (frame_Newtemp (manchester s)) (frame_Newhum (manchester s));
              Reading (frame_stnId (manchester s))
                (frame_Newtemp (manchester s)) (frame_Newhum (manchester s))].
      split; [by rewrite Etr |]. right. eexists _, _, _. by right.
    + fields_in Etr.
      exists [Reading (frame_stnId (manchester s))
                (frame_Newtemp (manchester s)) (frame_Newhum (manchester s))].
      split; [by rewrite Etr |]. right. eexists _, _, _. by left.
    + subst y. fields.
      exists [Reading (frame_stnId (manchester s))
                (frame_Newtemp (manchester s)) (frame_Newhum (manchester s))].
      split; [done |]. right. eexists _, _, _. by left.
  - fields. exists []. split; [done | by left].
Qed.

(** A call of [loop] prints at most one reading, and only in a call in
    which [add] finds the byte counter at [maxBytes]: the trace grows by
    nothing, or by a frame, followed by at most one call of [saveReading]
    and at most one line for the sink, with the channel number one above
    the channel of the call. *)
Theorem one_reading_per_call (e : Env) (s s' : State) :
  loop e s = Some s' ->
  trace s' = trace s
  \/ (nosBytes s' = maxBytes
      /\ exists evs,
           trace s' = evs ++ Frame (take 6 (manchester s')) :: trace s
           /\ (evs = []
               \/ exists c t h,
                    evs = [Reading c t h] \/ evs = [Sent (c + 1) t h; Reading c t h])).
Proof.
  intros H.
  destruct (loop_shape e s s' H) as [[(Etr & _) _] | (b & s0 & s1 & Hss & Ha & ->)];
    [by left |].
  destruct Hss as (Etr0 & _).
  apply add_inv in Ha as (sa & Hsa & [[Hk ->] | [_ ->]]).
  - right. apply shift_in_inv in Hsa as (Etra & _).
    destruct (interpret_trace (millis e) sa) as (evs & Etr & Hevs).
    destruct (interpret_keeps (millis e) sa) as (_ & _ & _ & _ & _ & _ & Ek & Em & _).
    remember (interpret (millis e) sa) as y eqn:Ey. clear Ey.
    unfold next_bit. fields. rewrite Ek, Em. split; [done |].
    exists evs. rewrite Etr, Etra, Etr0. done.
  - left. apply shift_in_inv in Hsa as (Etra & _).
    unfold next_bit. fields. congruence.
Qed.

Lemma one_reading_per_call_witness :
  loop (clean sample_received true 5000) sample_received = Some sample_reread
  /\ (trace sample_reread = trace sample_received
      \/ (nosBytes sample_reread = maxBytes
          /\ exists evs,
               trace sample_reread
               = evs ++ Frame (take 6 (manchester sample_reread)) :: trace sample_received
               /\ (evs = []
                   \/ exists c t h,
                        evs = [Reading c t h]
                        \/ evs = [Sent (c + 1) t h; Reading c t h]))).
Proof.
  assert (H : loop (clean sample_received true 5000) sample_received = Some sample_reread)
    by (vm_compute; reflexivity).
  split; [exact H |].
  exact (one_reading_per_call _ _ _ H).
Defined.

(** ** A full buffer is read again *)

Lemma add_again (now : Z) (b : bool) (s : State) :
  0 <= nosBits s < 7 -> nosBytes s = maxBytes ->
  add now (level b) s
  = Some (interpret now (set_nosBits (nosBits s + 1) (set_dataByte (shl (dataByte s) b) s))).
Proof.
  intros Hnb Hk. unfold add, shift_in. fields.
  rewrite (to_byte_small (nosBits s + 1)) by lia.
  assert (E : (nosBits s + 1 =? 8) = false) by lia. rewrite E. fields.
  by rewrite Hk.
Qed.

(** While the byte counter stands at [maxBytes], every bit that does not
    fill a byte enters the frame block again: the same six bytes are
    interpreted once more, and the receiver stays in the payload with the
    buffer and the byte counter as they were.  After a complete frame this
    happens for each of the next seven bits. *)
Theorem full_buffer_is_read_again (now : Z) (b : bool) (s : State) :
  rxstate s = 1 -> bit_ok s -> firstZero s = true -> headerBits <= headerHits s ->
  nosBytes s = maxBytes -> 0 <= nosBits s < 7 ->
  exists s',
    loop (clean s b now) s = Some s'
    /\ frames (trace s') = take 6 (manchester s) :: frames (trace s)
    /\ manchester s' = manchester s
    /\ nosBytes s' = maxBytes /\ nosBits s' = nosBits s + 1
    /\ rxstate s' = 1 /\ bit_ok s' /\ firstZero s' = true
    /\ headerHits s' = headerHits s.
Proof.
  intros Hrx Htb Hfz Hhh Hk Hnb.
  rewrite (loop_payload now b s Hrx Htb Hhh (or_introl Hfz)).
  rewrite add_again by (fields; lia).
  match goal with |- context [interpret now ?x] =>
    destruct (interpret_effect now x) as (Em & _ & _ & _ & _ & Ef & _);
    destruct (interpret_keeps now x) as (_ & Ktb & Kfz & Khh & _ & Knb & Kk & _);
    remember (interpret now x) as y eqn:Ey; clear Ey
  end.
  fields_in Em. fields_in Ef. fields_in Ktb. fields_in Kfz. fields_in Khh.
  fields_in Knb. fields_in Kk.
  cbn [bind]. eexists; split; [reflexivity |].
  unfold next_bit, bit_ok. fields. rewrite Ef, Em, Kk, Knb, Ktb, Kfz, Khh.
  repeat split; try done.
  unfold level. destruct b; cbn; [by left | by right].
Qed.

Lemma full_buffer_is_read_again_witness :
  exists s',
    loop (clean sample_received true 5000) sample_received = Some s'
    /\ frames (trace s')
       = take 6 (manchester sample_received) :: frames (trace sample_received)
    /\ manchester s' = manchester sample_received
    /\ nosBytes s' = maxBytes /\ nosBits s' = nosBits sample_received + 1
    /\ rxstate s' = 1 /\ bit_ok s' /\ firstZero s' = true
    /\ headerHits s' = headerHits sample_received.
Proof.
  apply (full_buffer_is_read_again 5000 true sample_received);
    [vm_compute; reflexivity | left; vm_compute; reflexivity | vm_compute; reflexivity
     | vm_compute; discriminate | vm_compute; reflexivity
     | vm_compute; split; [discriminate | reflexivity]].
Defined.

(** ** The end of the header *)

(** From a reset, [n] ones and a zero: the zero ends the header exactly
    when [n mod 256] is at least 10, the counter of ones being a byte.
    Then the zero is the first bit taken ([nosBits] goes from 6 to 7);
    otherwise the receiver goes back to case 0.  Either way nothing is
    stored or printed. *)
Theorem header_ends_at_ten_mod_256 (now : Z) (n : nat) (s : State) :
  rxstate s = 0 ->
  exists s',
    feed now (replicate n true ++ [false]) s = Some s'
    /\ trace s' = trace s /\ manchester s' = manchester s
    /\ if headerBits <=? Z.of_nat n mod 256
       then rxstate s' = 1 /\ firstZero s' = true /\ nosBits s' = 7 /\ nosBytes s' = 0
       else rxstate s' = 0.
Proof.
  intros Hrx. destruct n as [| n].
  - destruct (step_reset_zero now s Hrx) as (s' & Hs' & Hrx' & Etr & Em & _).
    exists s'. cbn [replicate app]. rewrite (feed_cons_Some _ _ _ _ _ Hs'). done.
  - destruct (header_run now (S n) s Hrx ltac:(lia)) as (s1 & Hs1 & Hph).
    rewrite feed_app, Hs1. cbn [bind].
    destruct (headerBits <=? Z.of_nat (S n) mod 256) eqn:E.
    + apply Z.leb_le in E.
      destruct (step_shift now false s s1 false _ _ 6 0 _ Hph E (or_intror eq_refl))
        as (s' & Hs' & Hph'); [lia | done |].
      exists s'. rewrite (feed_cons_Some _ _ _ _ _ Hs').
      destruct Hph' as [? ? ? ? ? ? ? ? ?]. done.
    + apply Z.leb_gt in E.
      destruct (step_premature_zero now s s1 false _ _ 6 0 _ Hph E)
        as (s' & Hs' & Hrx' & Etr & Em & _).
      exists s'. rewrite (feed_cons_Some _ _ _ _ _ Hs'). done.
Qed.

Lemma header_ends_at_ten_mod_256_witness :
  exists s',
    feed 5000 (replicate 265 true ++ [false]) power_on = Some s'
    /\ trace s' = trace power_on /\ manchester s' = manchester power_on
    /\ if headerBits <=? Z.of_nat 265 mod 256
       then rxstate s' = 1 /\ firstZero s' = true /\ nosBits s' = 7 /\ nosBytes s' = 0
       else rxstate s' = 0.
Proof.
  apply (header_ends_at_ten_mod_256 5000 265 power_on). reflexivity.
Defined.

(** ** A timing error in the middle of a frame *)

(** When the level has changed by the end of the short delay, the frame in
    progress is given up, however many of its bytes are in: the receiver
    goes to case 0 with buffer, tables and trace untouched, and a header,
    zero and payload that follow are assembled into one frame as from any
    reset. *)
Theorem timing_error_drops_frame (e : Env) (now : Z) (s : State) (n : nat) (p : bool)
    (payload : list Z) :
  rxstate s = 1 -> level (pin_wait e) = tempBit s ->
  micros_s e > to_ulong (EdgeTime e + sDelay) -> level (pin_s e) <> tempBit s ->
  length (manchester s) = 7%nat -> headerBits <= Z.of_nat n mod 256 ->
  length payload = 5%nat -> Forall is_byte payload ->
  exists s1,
    loop e s = Some s1 /\ rxstate s1 = 0 /\ same_store s s1
    /\ exists s',
         feed now (replicate n true ++ false :: p :: concat (map bits_of_byte payload)) s1
         = Some s'
         /\ take 6 (manchester s') = to_byte (4 * dataByte s + level p) :: payload
         /\ frames (trace s') = take 6 (manchester s') :: frames (trace s).
Proof.
  intros Hrx Hw Ht Hs Hlen Hn Hl Hb.
  assert (H1 : loop e s
               = Some (set_rxstate 0 (set_rxstate 2
                         (set_Dstop (to_ulong (EdgeTime e + sDelay)) s)))).
  { unfold loop, case1, case2. rewrite Hrx, Hw, Z.eqb_refl. fields.
    assert (E1 : (micros_s e >? to_ulong (EdgeTime e + sDelay)) = true) by lia.
    assert (E2 : (level (pin_s e) =? tempBit s) = false) by lia.
    by rewrite E1, E2. }
  eexists. split; [exact H1 |]. fields. split; [done |]. split; [by repeat split |].
  match goal with |- context [feed now _ ?x] =>
    destruct (decode_after_reset now x n p payload) as (s' & Hs' & _ & _ & Hm & Hf);
    try done
  end.
  exists s'. fields_in Hm. fields_in Hf. done.
Qed.

Lemma timing_error_drops_frame_witness :
  exists s1,
    loop early_change mid_frame = Some s1 /\ rxstate s1 = 0 /\ same_store mid_frame s1.
Proof.
  destruct (timing_error_drops_frame early_change 5000 mid_frame 10 true
              [0x45; 0x4F; 0x04; 0x4B; 0x0B]) as (s1 & H1 & Hrx & Hss & _).
  - vm_compute. reflexivity.
  - vm_compute. reflexivity.
  - vm_compute. reflexivity.
  - vm_compute. discriminate.
  - vm_compute. reflexivity.
  - vm_compute. discriminate.
  - reflexivity.
  - repeat (constructor; [unfold is_byte; lia |]). constructor.
  - exists s1. split; [exact H1 |]. split; [exact Hrx | exact Hss].
Defined.

(** ** The frame fields against the documented layout *)

(** Bytes 3 and 4 laid out as the header comment of the sketch describes
    them (battery bit, three channel bits, twelve temperature bits) are
    read back as the channel and the temperature modulo 2048: the mask of
    line 281 takes three of the four high temperature bits, so a raw
    temperature below 2048 comes back unchanged and one from 2048 up loses
    2048.  The battery bit has no influence. *)
Theorem documented_layout_read_back (batt chan temp : Z) (m : list Z) :
  0 <= batt <= 1 -> 0 <= chan <= 7 -> 0 <= temp < 4096 ->
  rd m 3 = layout_byte3 batt chan temp -> rd m 4 = layout_byte4 temp ->
  frame_stnId m = chan /\ frame_Newtemp m = temp mod 2048.
Proof.
  intros Hb Hc Ht E3 E4. unfold frame_stnId, frame_Newtemp, layout_byte3, layout_byte4 in *.
  rewrite E3, E4. clear E3 E4.
  assert (Hx : 0 <= batt * 128 + chan * 16 + temp / 256)
    by (Z.div_mod_to_equations; lia).
  rewrite stnId_bits by done.
  change 7 with (Z.ones 3). rewrite !Z.land_ones by lia.
  rewrite Z.shiftr_div_pow2 by lia.
  change (2 ^ 3) with 8. change (2 ^ 4) with 16.
  split; Z.div_mod_to_equations; lia.
Qed.

Lemma documented_layout_read_back_witness :
  frame_stnId [0; 0; 0; layout_byte3 1 2 2148; layout_byte4 2148; 0; 0] = 2
  /\ frame_Newtemp [0; 0; 0; layout_byte3 1 2 2148; layout_byte4 2148; 0; 0]
     = 2148 mod 2048.
Proof.
  apply (documented_layout_read_back 1 2 2148); [lia | lia | lia | reflexivity | reflexivity].
Defined.

(** ** Bytes in the accumulator *)

Lemma shift_all_short (bs : list bool) :
  forall s, 0 <= nosBits s -> nosBits s + Z.of_nat (length bs) <= 7 ->
    exists s', shift_all bs s = Some s'
      /\ dataByte s' = fold_left shl bs (dataByte s)
      /\ nosBits s' = nosBits s + Z.of_nat (length bs)
      /\ nosBytes s' = nosBytes s /\ manchester s' = manchester s.
Proof.
  induction bs as [| b bs IH]; intros s Hnb Hlen.
  - exists s. cbn. repeat split; lia.
  - cbn [length] in Hlen. cbn [shift_all fold_left].
    assert (E : shift_in (level b) s
                = Some (set_nosBits (nosBits s + 1) (set_dataByte (shl (dataByte s) b) s))).
    { unfold shift_in. fields. rewrite (to_byte_small (nosBits s + 1)) by lia.
      assert (E8 : (nosBits s + 1 =? 8) = false) by lia. by rewrite E8. }
    rewrite E. cbn [bind].
    destruct (IH (set_nosBits (nosBits s + 1) (set_dataByte (shl (dataByte s) b) s)))
      as (s' & Hs' & Ed & En & Ek & Em); [fields; lia | fields; lia |].
    fields_in Ed. fields_in En. fields_in Ek. fields_in Em.
    exists s'. cbn [length]. repeat split; try done. lia.
Qed.

Lemma shift_all_app (l1 l2 : list bool) (s : State) :
  shift_all (l1 ++ l2) s = do s' <- shift_all l1 s; shift_all l2 s'.
Proof.
  revert s. induction l1 as [| b l1 IH]; intros s; [done |].
  cbn [app shift_all]. destruct (shift_in (level b) s); cbn [bind]; [apply IH | done].
Qed.

(** Eight bits shifted in from a byte boundary: if the store is defined,
    the byte counter was inside the buffer, and the byte stored there is
    made of exactly these eight bits, the first one highest, whatever the
    accumulator held before; the accumulator is never cleared. *)
Theorem eight_bits_make_the_byte (bs : list bool) (s s' : State) :
  shift_all bs s = Some s' -> length bs = 8%nat ->
  nosBits s = 0 -> length (manchester s) = 7%nat ->
  0 <= nosBytes s < 7
  /\ dataByte s' = pack bs
  /\ manchester s' = wr (manchester s) (nosBytes s) (pack bs)
  /\ rd (manchester s') (nosBytes s) = pack bs
  /\ nosBytes s' = nosBytes s + 1 /\ nosBits s' = 0.
Proof.
  intros H Hl Hnb Hm.
  pose proof (fold_shl_byte bs (dataByte s) Hl) as Hpack.
  destruct (split_last_bit bs Hl) as (bs7 & b8 & -> & Hl7).
  rewrite shift_all_app in H.
  destruct (shift_all_short bs7 s) as (s1 & Hs1 & Ed & En & Ek & Em); [lia | lia |].
  rewrite Hs1 in H. cbn [bind shift_all] in H.
  apply bind_Some in H as (s2 & H2 & H). inversion H; subst s2; clear H.
  rewrite fold_left_app in Hpack. cbn [fold_left] in Hpack. unfold shl at 1 in Hpack.
  revert H2. unfold shift_in, store. fields. rewrite En, Hnb, Hl7.
  change (to_byte (0 + Z.of_nat 7 + 1) =? 8) with true. fields. rewrite Ek, Ed, Em, Hpack.
  destruct ((0 <=? nosBytes s) && (nosBytes s <? manchester_len)) eqn:Eb;
    cbn [bind]; [| discriminate].
  unfold manchester_len in Eb.
  intros H; inversion H; subst s'; clear H. fields.
  split; [lia |]. split; [done |]. split; [done |].
  split; [apply rd_wr_eq; lia |]. split; [apply to_byte_small; lia | done].
Qed.

Lemma eight_bits_make_the_byte_witness :
  exists s',
    shift_all (bits_of_byte 0x4B) (set_nosBits 0 (set_dataByte 0xFF power_on)) = Some s'
    /\ rd (manchester s') 0 = pack (bits_of_byte 0x4B).
Proof.
  eexists. split; [vm_compute; reflexivity |].
  match goal with |- rd (manchester ?x) _ = _ =>
    destruct (eight_bits_make_the_byte (bits_of_byte 0x4B)
                (set_nosBits 0 (set_dataByte 0xFF power_on)) x)
      as (_ & _ & _ & E & _)
  end; [vm_compute; reflexivity | reflexivity | reflexivity | reflexivity |].
  exact E.
Defined.

(** ** The clock readings matter only through the deadline *)

Lemma saveReading_Dstop (D now c t h : Z) (s : State) :
  saveReading now c t h (set_Dstop D s) = set_Dstop D (saveReading now c t h s).
Proof.
  destruct s; unfold saveReading, validate, due, forward, accept, log; simpl.
  repeat (match goal with |- context [if ?b then _ else _] => destruct b eqn:? end;
          simpl; try done).
Qed.

Lemma interpret_Dstop (D now : Z) (s : State) :
  interpret now (set_Dstop D s) = set_Dstop D (interpret now s).
Proof.
  unfold interpret. fields.
  destruct ((frame_dataType (manchester s) =? 69) && (frame_Newhum (manchester s) <=? 100));
    [| reflexivity].
  rewrite <- saveReading_Dstop. reflexivity.
Qed.

Lemma shift_in_Dstop (D b : Z) (s : State) :
  shift_in b (set_Dstop D s)
  = match shift_in b s with Some s' => Some (set_Dstop D s') | None => None end.
Proof.
  unfold shift_in, store. fields.
  destruct (to_byte (nosBits s + 1) =? 8); [| reflexivity]. fields.
  destruct ((0 <=? nosBytes s) && (nosBytes s <? manchester_len)); reflexivity.
Qed.

Lemma add_Dstop (D now b : Z) (s : State) :
  add now b (set_Dstop D s)
  = match add now b s with Some s' => Some (set_Dstop D s') | None => None end.
Proof.
  unfold add. rewrite shift_in_Dstop.
  destruct (shift_in b s) as [s1 |]; cbn [bind]; [| done]. fields.
  destruct (nosBytes s1 =? maxBytes); [| done]. by rewrite interpret_Dstop.
Qed.

Lemma dispatch_Dstop (D now : Z) (s : State) :
  dispatch now (set_Dstop D s)
  = match dispatch now s with Some s' => Some (set_Dstop D s') | None => None end.
Proof.
  unfold dispatch. fields.
  destruct (to_byte (Z.lxor (tempBit s) polarity) =? 1).
  - destruct (negb (firstZero s)); [reflexivity |].
    rewrite add_Dstop. destruct (add now _ s); reflexivity.
  - destruct (headerHits s <? headerBits); [reflexivity |].
    change (set_firstZero true (set_Dstop D s)) with (set_Dstop D (set_firstZero true s)).
    rewrite add_Dstop. destruct (add now _ (set_firstZero true s)); reflexivity.
Qed.

Lemma case4_Dstop (D : Z) (e : Env) (s : State) :
  case4 e (set_Dstop D s)
  = match case4 e s with Some s' => Some (set_Dstop D s') | None => None end.
Proof.
  unfold case4. fields. destruct (level (pin_bit e) =? tempBit s).
  - change (set_tempBit (to_byte (Z.lxor (tempBit s) 1)) (set_Dstop D s))
      with (set_Dstop D (set_tempBit (to_byte (Z.lxor (tempBit s) 1)) s)).
    apply dispatch_Dstop.
  - apply dispatch_Dstop.
Qed.

Lemma loop_passes (e : Env) (s : State) :
  rxstate s = 1 -> passes e (tempBit s) ->
  but_Dstop (loop e s) = but_Dstop (case4 e (set_rxstate 4 s)).
Proof.
  intros Hrx (Hw & Hs & Hts & Htl).
  rewrite (loop_resolves e s Hrx Hw Hs Hts Htl).
  match goal with |- but_Dstop (case4 e ?x) = _ =>
    change x with (set_Dstop (to_ulong (to_ulong (EdgeTime e + sDelay) + lDelay))
                     (set_rxstate 4 s))
  end.
  rewrite case4_Dstop. destruct (case4 e (set_rxstate 4 s)); reflexivity.
Qed.

Lemma clean_passes (s : State) (b : bool) (now : Z) :
  rxstate s = 1 -> bit_ok s -> passes (clean s b now) (tempBit s).
Proof.
  intros Hrx Htb. unfold passes, clean. rewrite Hrx. cbn.
  destruct Htb as [-> | ->]; cbn; repeat split; lia.
Qed.

(** A call of [loop] that finds the awaited level and both delays over
    resolves the bit read in case 4 in the same way whatever the clock
    readings were: its result differs from that under the readings of
    [clean] at most in the deadline [Dstop], which case 1 overwrites before
    it is read again.  This holds from case 1 and, with the polarity as
    the awaited level, from case 0. *)
Theorem any_timing_resolves_alike (e : Env) (s : State) :
  (rxstate s = 1 /\ bit_ok s /\ passes e (tempBit s))
  \/ (rxstate s = 0 /\ passes e polarity) ->
  but_Dstop (loop e s) = but_Dstop (loop (clean s (pin_bit e) (millis e)) s).
Proof.
  intros [(Hrx & Htb & Hp) | (Hrx & Hp)].
  - rewrite (loop_passes e s Hrx Hp).
    rewrite (loop_passes (clean s (pin_bit e) (millis e)) s Hrx
               (clean_passes s _ _ Hrx Htb)).
    reflexivity.
  - assert (Hl : forall e', loop e' s = loop e' (reset s)).
    { intros e'. unfold loop at 1. rewrite Hrx. unfold case0.
      replace (set_isrcalled false (set_rxstate (to_byte (rxstate (set_nosBytes 0
                 (set_nosBits 6 (set_headerHits 0 (set_firstZero false
                   (set_tempBit polarity s))))) + 1)) (set_nosBytes 0 (set_nosBits 6
                     (set_headerHits 0 (set_firstZero false (set_tempBit polarity s)))))))
        with (reset s); [reflexivity |].
      unfold reset. fields. by rewrite Hrx. }
    rewrite !Hl.
    assert (Hc : clean s (pin_bit e) (millis e) = clean (reset s) (pin_bit e) (millis e)).
    { unfold clean. fields. by rewrite Hrx. }
    rewrite Hc.
    rewrite (loop_passes e (reset s) eq_refl Hp).
    rewrite (loop_passes (clean (reset s) (pin_bit e) (millis e)) (reset s) eq_refl
               (clean_passes (reset s) _ _ eq_refl (or_intror eq_refl))).
    reflexivity.
Qed.

Lemma any_timing_resolves_alike_witness :
  passes late_env polarity
  /\ but_Dstop (loop late_env power_on)
     = but_Dstop (loop (clean power_on (pin_bit late_env) (millis late_env)) power_on).
Proof.
  assert (H : passes late_env polarity).
  { unfold passes. vm_compute. repeat split. }
  split; [exact H |].
  apply (any_timing_resolves_alike late_env power_on). right. split; [reflexivity | exact H].
Defined.

(** ** The reading as the sink gets it *)

Lemma lit_0_0556_nearest :
  lit_0_0556 = SFdiv 24 128 (float_of_int 556) (float_of_int 10000).
Proof. vm_compute. reflexivity. Qed.

Lemma decimals_table : forallb decimals_ok raw_temperatures = true.
Proof. vm_compute. reflexivity. Qed.

Lemma decimals_ok_all (t : Z) : 0 <= t <= 2047 -> decimals_ok t = true.
Proof.
  intros Ht. pose proof decimals_table as H. rewrite forallb_forall in H.
  apply H. unfold raw_temperatures. apply in_map_iff.
  exists (Z.to_nat t). split; [lia |]. apply in_seq. lia.
Qed.

(** In the range of the sensor the half-way case makes no difference:
    rounding to even prints the same digits as rounding away from zero. *)
Lemma no_half_way (t : Z) :
  0 <= t <= 2047 ->
  to_decimals_even 2 (siTemp t) = to_decimals 2 (siTemp t)
  /\ to_decimals_even 1 (siTemp t) = to_decimals 1 (siTemp t).
Proof.
  intros Ht. pose proof (decimals_ok_all t Ht) as H. unfold decimals_ok in H.
  destruct (to_decimals 2 (siTemp t)) as [n2 |]; [| discriminate].
  destruct (to_decimals 1 (siTemp t)) as [n1 |]; [| discriminate].
  rewrite !andb_true_iff in H. destruct H as ((((_ & He2) & He1) & _) & _).
  apply bool_decide_eq_true in He1, He2. done.
Qed.

(** The text [dtostrf] writes has at least the two characters asked for,
    so it is not padded, and at most five, so with its end marker it fits
    the six bytes of [tempstr]. *)
Lemma tempstr_fits (t n1 : Z) :
  0 <= t <= 2047 -> to_decimals 1 (siTemp t) = Some n1 ->
  (2 <= String.length (fixed 1 n1) <= 5)%nat.
Proof.
  intros Ht E. pose proof (decimals_ok_all t Ht) as H. unfold decimals_ok in H.
  rewrite E in H.
  destruct (to_decimals 2 (siTemp t)) as [n2 |]; [| discriminate].
  rewrite !andb_true_iff in H. destruct H as ((_ & Hl) & Hu).
  apply Nat.leb_le in Hl, Hu. lia.
Qed.

(** C9, as stated, fails for the serial line: the reading 1099 / 11 on
    channel 0, forwarded at 5000 ms, is printed as 1:21.07:11, with the
    temperature to two decimals, not as 21.1. *)
Lemma sink_counterexample :
  trace (saveReading 5000 0 1099 11 power_on) = [Sent 1 1099 11; Reading 0 1099 11]
  /\ serial_text (Sent 1 1099 11) = Some "1:21.07:11"
  /\ ~ serial_text (Sent 1 1099 11) = Some "1:21.1:11".
Proof.
  split; [vm_compute; reflexivity |].
  assert (E : serial_text (Sent 1 1099 11) = Some "1:21.07:11")
    by (vm_compute; reflexivity).
  split; [exact E |]. rewrite E. discriminate.
Qed.

(** C9, amended.  A forwarded reading with channel c, raw temperature t
    (0 to 2047) and humidity h is given to the sink as follows.  The serial
    line is the channel number c + 1, the temperature and h, separated by
    colons, the temperature with two digits after the point: the hundredth
    nearest to 0.0556 * (t - 720).  The display shows the channel number,
    the temperature with one digit after the point, a tenth within half a
    tenth of 0.0556 * (t - 720), and h.  The temperature printed is that
    of the binary32 product of line 331. *)
Theorem sink_output (now c t h : Z) (s : State) :
  0 <= c <= 7 -> 0 <= t <= 2047 ->
  forwarded now c t h s = true ->
  exists n2 n1,
    trace (saveReading now c t h s) = Sent (c + 1) t h :: Reading c t h :: trace s
    /\ to_decimals 2 (siTemp t) = Some n2 /\ to_decimals 1 (siTemp t) = Some n1
    /\ Z.abs (100 * n2 - 556 * (t - 720)) < 50
    /\ Z.abs (1000 * n1 - 556 * (t - 720)) <= 500
    /\ serial_text (Sent (c + 1) t h)
       = Some (pretty (c + 1) +:+ ":" +:+ fixed 2 n2 +:+ ":" +:+ pretty h)
    /\ display_text (Sent (c + 1) t h)
       = Some [(0, 0, pretty (c + 1)); (2, 0, ": "); (4, 0, fixed 1 n1 +:+ " ");
               (0, 4, pretty h +:+ "  ")].
Proof.
  intros Hc Ht Hf.
  destruct (saveReading_effect now c t h s Hc) as (_ & _ & _ & Etr).
  rewrite Hf in Etr. cbn [app] in Etr.
  pose proof (decimals_ok_all t Ht) as H. unfold decimals_ok in H.
  destruct (to_decimals 2 (siTemp t)) as [n2 |] eqn:E2; [| discriminate].
  destruct (to_decimals 1 (siTemp t)) as [n1 |] eqn:E1; [| discriminate].
  rewrite !andb_true_iff in H. destruct H as (((((H2 & H1) & _) & _) & _) & _).
  exists n2, n1. split; [exact Etr |]. split; [done |]. split; [done |].
  split; [lia |]. split; [lia |]. split.
  - unfold serial_text. by rewrite E2.
  - unfold display_text. rewrite E1. do 3 f_equal.
    assert (Hg : c = 0 \/ c = 1 \/ c = 2 \/ c = 3 \/ c = 4 \/ c = 5 \/ c = 6 \/ c = 7)
      by lia.
    destruct Hg as [-> | [-> | [-> | [-> | [-> | [-> | [-> | ->]]]]]]];
      vm_compute; reflexivity.
Qed.

Lemma sink_output_witness :
  forwarded 5000 0 1099 11 power_on = true
  /\ serial_text (Sent (0 + 1) 1099 11) = Some "1:21.07:11"
  /\ display_text (Sent (0 + 1) 1099 11)
     = Some [(0, 0, "1"); (2, 0, ": "); (4, 0, "21.1 "); (0, 4, "11  ")].
Proof.
  assert (Hf : forwarded 5000 0 1099 11 power_on = true) by (vm_compute; reflexivity).
  split; [exact Hf |].
  destruct (sink_output 5000 0 1099 11 power_on) as (n2 & n1 & _ & E2 & E1 & _ & _ & Es & Ed);
    [lia | lia | exact Hf |].
  assert (H2 : n2 = 2107) by (vm_compute in E2; congruence).
  assert (H1 : n1 = 211) by (vm_compute in E1; congruence).
  subst n2 n1. split.
  - rewrite Es. vm_compute. reflexivity.
  - rewrite Ed. vm_compute. reflexivity.
Defined.
